(** * Verification of the arbitrage detector and scanner of [bot.py]

    The development embeds [ArbitrageBot.get_arbitrage_opportunities] and
    [ArbitrageBot.scan_multiple_pairs] of [bot.py] and proves the properties
    that the design document states about them.

    Numbers.  The bid, ask and last of a ccxt ticker are Python [float]s
    (or [None]), that is IEEE-754 binary64 values; they are modelled by
    Rocq's primitive [float], which is the same format with the same
    correctly rounded operations, so [-], [*], [<] and [>] below compute
    bit for bit what Python computes (NaN, infinities and signed zeros
    included), and so does [/] on a divisor that is not zero, where Python
    raises [ZeroDivisionError] instead: the code divides by [lowest_ask]
    only after it has tested [lowest_ask > 0].  The integer literals [0]
    and [100] of the source are converted to the floats [0.0] and [100.0]
    by Python before it compares or multiplies.

    Structure.  [fetch_prices] is the loop of lines 39-52 that builds the
    dictionary [prices]; [detect] is the rest of the [try] block, lines
    54-73, which the design document calls the detector;
    [get_arbitrage_opportunities] composes the two.  [status] is the
    handler of lines 171-188, as the message it sends.  The handlers
    [scan_arbitrage] and [scan_all_pairs] format floats for display and are
    not modelled.

    Effects.  Exceptions are explicit ([result]); a [try]/[except] is
    [try_except].  Logging and [asyncio.sleep] do not influence any returned
    value and are left out.  Within one call every (exchange, symbol) pair is
    fetched exactly once, so an exchange is modelled by the function from the
    symbol to the outcome of that one [fetch_ticker] call. *)

From Stdlib Require Import ZArith Lia List String Bool Floats Sorted Permutation.
From Stdlib Require Import DecimalString.
Import ListNotations.

#[local] Set Warnings "-inexact-float".

#[local] Open Scope float_scope.

(** ** The order of binary64 values *)

Module FloatOrder.

(** A non-NaN value is ranked by a triple compared lexicographically: the
    class (negative infinity, negative, zero, positive, positive infinity),
    then exponent and mantissa, both negated for negative values. *)
Definition rank (x : spec_float) : Z * Z * Z :=
  match x with
  | S754_nan => (0, 0, 0)%Z
  | S754_zero _ => (0, 0, 0)%Z
  | S754_infinity true => (-2, 0, 0)%Z
  | S754_infinity false => (2, 0, 0)%Z
  | S754_finite true m e => (-1, - e, Z.neg m)%Z
  | S754_finite false m e => (1, e, Z.pos m)%Z
  end.

Definition lexcmp (p q : Z * Z * Z) : comparison :=
  let '(a, b, c) := p in
  let '(a', b', c') := q in
  match (a ?= a')%Z with
  | Eq => match (b ?= b')%Z with
          | Eq => (c ?= c')%Z
          | r => r
          end
  | r => r
  end.

Definition is_nan_sf (x : spec_float) : bool :=
  match x with S754_nan => true | _ => false end.

(** [ordered x] says that [x] is not a NaN: it is comparable with itself. *)
Definition ordered (x : float) : Prop := (x =? x) = true.

Definition flt (x y : float) : Prop := (x <? y) = true.
Definition fle (x y : float) : Prop := (x <=? y) = true.

(** The comparison of two primitive floats, read on their specification. *)
Definition fcmp (x y : float) : option comparison :=
  SFcompare (Prim2SF x) (Prim2SF y).

Definition frank (x : float) : Z * Z * Z := rank (Prim2SF x).

End FloatOrder.

Import FloatOrder.

(** Python's [x > y] on floats. *)
Definition gtb (x y : float) : bool := y <? x.
Notation "x >? y" := (gtb x y) (at level 70, no associativity) : float_scope.

(** ** Exceptions *)

Inductive exn : Type :=
| KeyError (key : string)
| ValueError
| ExchangeError (msg : string).

Inductive result (A : Type) : Type :=
| Ok (a : A)
| Raise (e : exn).
Arguments Ok {A} a.
Arguments Raise {A} e.

Definition bind {A B : Type} (c : result A) (k : A -> result B) : result B :=
  match c with
  | Ok a => k a
  | Raise e => Raise e
  end.

Notation "x <- c ;; k" := (bind c (fun x => k))
  (at level 61, c at next level, right associativity).

(** [try: c  except Exception as e: h e], for a handler that cannot raise. *)
Definition try_except {A : Type} (c : result A) (h : exn -> A) : A :=
  match c with
  | Ok a => a
  | Raise e => h e
  end.

(** ** Dictionaries

    A Python [dict] keeps its keys in insertion order and holds each key
    once: an association list, where assigning to a key that is present
    overwrites in place and a new key goes to the end. *)

Definition dict (V : Type) : Type := list (string * V).

Definition keys {V : Type} (d : dict V) : list string := map fst d.

Fixpoint dict_get {V : Type} (k : string) (d : dict V) : result V :=
  match d with
  | [] => Raise (KeyError k)
  | (k', v) :: d' => if String.eqb k k' then Ok v else dict_get k d'
  end.

Fixpoint dict_set {V : Type} (k : string) (v : V) (d : dict V) : dict V :=
  match d with
  | [] => [(k, v)]
  | (k', v') :: d' =>
      if String.eqb k k' then (k, v) :: d' else (k', v') :: dict_set k v d'
  end.

(** ** [min] and [max] with a [key] function

    CPython's [min(iterable, key=f)] keeps the first item and replaces it by
    a later one only when that one's key is strictly smaller ([<]); [max]
    does the same with [>].  An empty iterable raises [ValueError]; an
    exception of the key function propagates. *)

Section MinMax.
Context {A : Type}.
Variable better : float -> float -> bool.
Variable key : A -> result float.

Fixpoint min_max_loop (item : A) (val : float) (l : list A) : result A :=
  match l with
  | [] => Ok item
  | x :: r =>
      v <- key x ;;
      if better v val then min_max_loop x v r else min_max_loop item val r
  end.

Definition min_max (l : list A) : result A :=
  match l with
  | [] => Raise ValueError
  | x :: r => v <- key x ;; min_max_loop x v r
  end.
End MinMax.

Definition py_min {A : Type} (l : list A) (key : A -> result float) : result A :=
  min_max ltb key l.

Definition py_max {A : Type} (l : list A) (key : A -> result float) : result A :=
  min_max gtb key l.

(** ** [list.sort(key=..., reverse=True)] and slicing

    Python's sort is stable, compares keys with [<] only, and with
    [reverse=True] still keeps equal elements in their original order.  On
    keys that are totally ordered this fixes the result, which the stable
    insertion sort below computes. *)

Section SortDesc.
Context {A : Type}.
Variable key : A -> float.

Fixpoint insert_desc (x : A) (l : list A) : list A :=
  match l with
  | [] => [x]
  | y :: r => if key x <? key y then y :: insert_desc x r else x :: y :: r
  end.

Definition sort_desc (l : list A) : list A := fold_right insert_desc [] l.

(** [a] may stand before [b] in a descending list. *)
Definition desc (a b : A) : Prop := fle (key b) (key a).
End SortDesc.

(** ** The data of [bot.py] *)

(** A ccxt ticker, as far as the bot reads it: each field is a number or
    [None]. *)
Record ticker : Type := {
  ticker_bid : option float;
  ticker_ask : option float;
  ticker_last : option float
}.

(** Truth value of a number or [None]: [None] and both zeros are false,
    everything else (NaN included) is true. *)
Definition truthy (v : option float) : bool :=
  match v with
  | None => false
  | Some x => negb (x =? 0)
  end.

(** An entry of [prices]: [{'bid': ..., 'ask': ..., 'last': ...}]. *)
Record quote : Type := {
  bid : float;
  ask : float;
  last : option float
}.

(** An exchange client; [fetch_ticker] may raise. *)
Record exchange : Type := {
  fetch_ticker : string -> result ticker
}.

Record opportunity : Type := {
  buy_at : string;
  sell_at : string;
  buy_price : float;
  sell_price : float;
  profit_percent : float;
  symbol : string
}.

Record ArbitrageBot : Type := {
  exchanges : dict exchange
}.

(** [ArbitrageBot.__init__]: the four clients, in this order.  The failure
    of [load_markets] is logged and changes nothing. *)
Definition ArbitrageBot_init (binance kucoin huobi okx : exchange) : ArbitrageBot :=
  {| exchanges := [("binance"%string, binance); ("kucoin"%string, kucoin);
                   ("huobi"%string, huobi); ("okx"%string, okx)] |}.

(** ** [get_arbitrage_opportunities] *)

(** Lines 40-52: one round of the loop over the exchanges. *)
Definition fetch_price (symbol : string) (prices : dict quote)
    (entry : string * exchange) : dict quote :=
  let '(name, exchange) := entry in
  try_except
    (ticker <- fetch_ticker exchange symbol ;;
     Ok (match ticker_bid ticker, ticker_ask ticker with
         | Some b, Some a =>
             if truthy (ticker_bid ticker) && truthy (ticker_ask ticker)
             then dict_set name {| bid := b; ask := a; last := ticker_last ticker |} prices
             else prices
         | _, _ => prices
         end))
    (fun _ => prices).

Definition fetch_prices (self : ArbitrageBot) (symbol : string) : dict quote :=
  fold_left (fetch_price symbol) (exchanges self) [].

(** Line 55: the value of [lowest_ask_exchange]. *)
Definition select_lowest_ask (prices : dict quote) : result string :=
  py_min (keys prices) (fun x => q <- dict_get x prices ;; Ok (ask q)).

(** Line 56: the value of [highest_bid_exchange]. *)
Definition select_highest_bid (prices : dict quote) : result string :=
  py_max (keys prices) (fun x => q <- dict_get x prices ;; Ok (bid q)).

(** Line 62: the value of [arbitrage_percent]; the code computes it for a
    positive [lowest_ask] only. *)
Definition percent (highest_bid lowest_ask : float) : float :=
  ((highest_bid - lowest_ask) / lowest_ask) * 100.

(** Lines 54-73: the detector proper, from the quotes collected for one
    symbol to the list [opportunities]. *)
Definition detect (prices : dict quote) (symbol : string)
    : result (list opportunity) :=
  if (2 <=? List.length prices)%nat then
    lowest_ask_exchange <- select_lowest_ask prices ;;
    highest_bid_exchange <- select_highest_bid prices ;;
    qa <- dict_get lowest_ask_exchange prices ;;
    let lowest_ask := ask qa in
    qb <- dict_get highest_bid_exchange prices ;;
    let highest_bid := bid qb in
    if (lowest_ask >? 0) && (highest_bid >? lowest_ask) then
      let arbitrage_percent := percent highest_bid lowest_ask in
      if arbitrage_percent >? 0.1 then
        Ok [ {| buy_at := lowest_ask_exchange;
                sell_at := highest_bid_exchange;
                buy_price := lowest_ask;
                sell_price := highest_bid;
                profit_percent := arbitrage_percent;
                symbol := symbol |} ]
      else Ok []
    else Ok []
  else Ok [].

(** Lines 35-79.  Whatever is raised inside the outer [try] is logged and
    the list, still empty at that point, is returned. *)
Definition get_arbitrage_opportunities (self : ArbitrageBot) (symbol : string)
    : list opportunity :=
  try_except
    (let prices := fetch_prices self symbol in
     detect prices symbol)
    (fun _ => []).

(** ** [scan_multiple_pairs] *)

Definition common_pairs : list string :=
  ["BTC/USDT"; "ETH/USDT"; "ADA/USDT"; "DOT/USDT"; "LINK/USDT"]%string.

(** Lines 93-94: sort by [profit_percent], largest first, and keep five. *)
Definition ranked (l : list opportunity) : list opportunity :=
  firstn 5 (sort_desc profit_percent l).

(** Lines 84-94 over any per-pair procedure [get], which may raise: a pair
    whose scan raises is logged and skipped. *)
Definition scan_pairs (get : string -> result (list opportunity))
    : list opportunity :=
  let all_opportunities :=
    fold_left
      (fun all_opportunities pair =>
         try_except
           (opportunities <- get pair ;;
            Ok (all_opportunities ++ opportunities))
           (fun _ => all_opportunities))
      common_pairs [] in
  ranked all_opportunities.

(** What one pair contributes to [all_opportunities]: its opportunities,
    or nothing when its scan raised. *)
Definition found (get : string -> result (list opportunity)) (pair : string)
    : list opportunity :=
  try_except (get pair) (fun _ => []).

(** The pairs other than [failed]. *)
Definition other_pairs (failed : string) : list string :=
  filter (fun p => negb (String.eqb p failed)) common_pairs.

Definition scan_multiple_pairs (self : ArbitrageBot) : list opportunity :=
  scan_pairs (fun pair => Ok (get_arbitrage_opportunities self pair)).

(** ** Vocabulary of the design document *)

Definition asks (prices : dict quote) : list float :=
  map (fun e => ask (snd e)) prices.

Definition bids (prices : dict quote) : list float :=
  map (fun e => bid (snd e)) prices.

(** [m] is the minimum ask of the quote set: one of the asks, and below or
    equal to each of them.  A set with a NaN ask has no minimum. *)
Definition is_min_ask (prices : dict quote) (m : float) : Prop :=
  In m (asks prices) /\ forall a, In a (asks prices) -> fle m a.

Definition is_max_bid (prices : dict quote) (m : float) : Prop :=
  In m (bids prices) /\ forall b, In b (bids prices) -> fle b m.

(** The exchange hands back a ticker whose bid and ask both count as true,
    so that line 43 lets it into [prices]. *)
Definition supplies_quote (exchange : exchange) (symbol : string) : bool :=
  match fetch_ticker exchange symbol with
  | Ok ticker => truthy (ticker_bid ticker) && truthy (ticker_ask ticker)
  | Raise _ => false
  end.

(** The key functions of lines 55 and 56, and the value they give when
    the key is present. *)
Definition key_of (proj : quote -> float) (prices : dict quote) (x : string)
    : result float :=
  q <- dict_get x prices ;; Ok (proj q).

Definition value_at (proj : quote -> float) (prices : dict quote) (x : string)
    : float :=
  match dict_get x prices with
  | Ok q => proj q
  | Raise _ => 0
  end.

(** The opportunity of lines 65-72, from the two selected entries. *)
Definition the_opportunity (symbol kb ks : string) (qa qb : quote) : opportunity :=
  {| buy_at := kb;
     sell_at := ks;
     buy_price := ask qa;
     sell_price := bid qb;
     profit_percent := percent (bid qb) (ask qa);
     symbol := symbol |}.

(** ** The rest of the module *)

(** What one exchange contributes to [prices] (lines 41-52): its quote
    under its name when [fetch_ticker] returns a ticker whose bid and ask
    both count as true, nothing when it raises or when one of the two is
    [None] or zero. *)
Definition quote_entry (symbol : string) (entry : string * exchange)
    : list (string * quote) :=
  let '(name, exchange) := entry in
  match fetch_ticker exchange symbol with
  | Ok ticker =>
      match ticker_bid ticker, ticker_ask ticker with
      | Some b, Some a =>
          if negb (b =? 0) && negb (a =? 0)
          then [(name, {| bid := b; ask := a; last := ticker_last ticker |})]
          else []
      | _, _ => []
      end
  | Raise _ => []
  end.

(** What holds of [prices] after every round, whatever the exchanges are. *)
Definition prices_invariant (self : ArbitrageBot) (symbol : string)
    (prices : dict quote) : Prop :=
  NoDup (keys prices) /\
  forall name q, In (name, q) prices ->
    (bid q =? 0) = false /\ (ask q =? 0) = false /\
    exists exchange ticker,
      In (name, exchange) (exchanges self) /\
      fetch_ticker exchange symbol = Ok ticker /\
      ticker_bid ticker = Some (bid q) /\
      ticker_ask ticker = Some (ask q) /\
      ticker_last ticker = last q.

(** *** [status] (lines 171-188)

    The handler reads the module's bot, which is a parameter here, and
    sends one message, which is the result here.  A Python [str] is the
    string of its UTF-8 bytes. *)

Definition nl : string := String (Ascii.ascii_of_nat 10) EmptyString.

(** [str(n)] for a length. *)
Definition str_of_nat (n : nat) : string :=
  DecimalString.NilEmpty.string_of_uint (Nat.to_uint n).

(** [sep.join(l)]. *)
Definition join (sep : string) (l : list string) : string := String.concat sep l.

(** Lines 172-179; the bare [except:] catches whatever is raised. *)
Definition active_exchanges (self : ArbitrageBot) : list string :=
  fold_left
    (fun active_exchanges entry =>
       let '(name, exchange) := entry in
       try_except
         (_ <- fetch_ticker exchange "BTC/USDT" ;;
          Ok (active_exchanges ++ [("✅ " ++ name)%string]))
         (fun _ => active_exchanges ++ [("❌ " ++ name)%string]))
    (exchanges self) [].

(** Lines 181-186. *)
Definition status_msg (active_exchanges : list string) : string :=
  ("🤖 Bot Status:" ++ nl ++
   "Exchanges: " ++ str_of_nat (List.length active_exchanges) ++ nl ++
   "Status: " ++ (match active_exchanges with
                  | [] => "❌ Issues"
                  | _ => "✅ Running"
                  end) ++ nl ++ nl ++
   "Exchange Status:" ++ nl ++ join nl active_exchanges)%string.

Definition status (self : ArbitrageBot) : string :=
  status_msg (active_exchanges self).

(** The mark of one exchange in the status message. *)
Definition status_line (entry : string * exchange) : string :=
  let '(name, exchange) := entry in
  match fetch_ticker exchange "BTC/USDT" with
  | Ok _ => ("✅ " ++ name)%string
  | Raise _ => ("❌ " ++ name)%string
  end.

(** ** Quote sets used as examples *)

Definition mk_quote (b a : float) : quote := {| bid := b; ask := a; last := None |}.

(** The first example of the document. *)
Definition spec_example_quotes : dict quote :=
  [("binance"%string, mk_quote 50000 50010); ("kucoin"%string, mk_quote 50200 50220)].

Definition spec_example_opportunity : opportunity :=
  {| buy_at := "binance"; sell_at := "kucoin";
     buy_price := 50010; sell_price := 50200;
     profit_percent := 0.3799240151969606; symbol := "BTC/USDT" |}.

(** Its second example: the best bid stays below the best ask. *)
Definition no_spread_quotes : dict quote :=
  [("A"%string, mk_quote 100 101); ("B"%string, mk_quote 100.05 100.9)].

(** One exchange whose own bid is above its own ask. *)
Definition crossed_quotes : dict quote :=
  [("binance"%string, mk_quote 102 100); ("kucoin"%string, mk_quote 101 101)].

(** Two exchanges share the lowest ask, two share the highest bid. *)
Definition tied_quotes : dict quote :=
  [("binance"%string, mk_quote 100 100); ("kucoin"%string, mk_quote 101 100);
   ("huobi"%string, mk_quote 101 102)].

(** An exchange that quotes the same bid and ask for every symbol, one
    that is down, and one that is down for a single symbol. *)
Definition quoting (b a : float) : exchange :=
  {| fetch_ticker := fun _ =>
       Ok {| ticker_bid := Some b; ticker_ask := Some a; ticker_last := None |} |}.

Definition unreachable : exchange :=
  {| fetch_ticker := fun _ => Raise (ExchangeError "unreachable") |}.

Definition failing_on (failed : string) (e : exchange) : exchange :=
  {| fetch_ticker := fun symbol =>
       if String.eqb symbol failed then Raise (ExchangeError "timeout")
       else fetch_ticker e symbol |}.

Definition unreachable_bot : ArbitrageBot :=
  ArbitrageBot_init unreachable unreachable unreachable unreachable.

Definition flat_bot : ArbitrageBot :=
  ArbitrageBot_init (quoting 100 101) (quoting 100 101) unreachable unreachable.

Definition crossed_bot : ArbitrageBot :=
  ArbitrageBot_init (quoting 102 100) (quoting 101 101) unreachable unreachable.

(** An opportunity with a given profit. *)
Definition with_profit (p : float) : opportunity :=
  {| buy_at := "binance"; sell_at := "kucoin"; buy_price := 100;
     sell_price := 101; profit_percent := p; symbol := "BTC/USDT" |}.

Definition steady_bot : ArbitrageBot :=
  ArbitrageBot_init (quoting 50000 50010) (quoting 50200 50220)
                    unreachable unreachable.

(** A per-pair procedure that raises for ETH/USDT. *)
Definition raising_get (pair : string) : result (list opportunity) :=
  if String.eqb pair "ETH/USDT" then Raise ValueError
  else Ok (get_arbitrage_opportunities steady_bot pair).

Definition patchy_bot : ArbitrageBot :=
  ArbitrageBot_init (failing_on "ETH/USDT" (quoting 50000 50010))
                    (failing_on "ETH/USDT" (quoting 50200 50220))
                    unreachable unreachable.

(** * Facts *)

(** ** The order of binary64 values is a total preorder outside NaN *)

Module FloatOrderFacts.
Lemma SFcompare_rank x y :
  is_nan_sf x = false -> is_nan_sf y = false ->
  SFcompare x y = Some (lexcmp (rank x) (rank y)).
Proof.
  destruct x as [sx|sx| |sx mx ex], y as [sy|sy| |sy my ey]; simpl;
    try discriminate; intros _ _;
    try (destruct sx); try (destruct sy); simpl; try reflexivity.
  rewrite Z.compare_opp, (Z.compare_antisym ex ey).
  destruct (ex ?= ey)%Z; reflexivity.
Qed.

Lemma SFcompare_some x y c :
  SFcompare x y = Some c -> is_nan_sf x = false /\ is_nan_sf y = false.
Proof. destruct x, y; simpl; try discriminate; auto. Qed.

Lemma lexcmp_Lt a b c a' b' c' :
  lexcmp (a, b, c) (a', b', c') = Lt <->
  (a < a' \/ (a = a' /\ (b < b' \/ (b = b' /\ c < c'))))%Z.
Proof.
  simpl.
  destruct (Z.compare_spec a a'); destruct (Z.compare_spec b b');
    destruct (Z.compare_spec c c'); split; intros; try discriminate;
    try reflexivity; lia.
Qed.

Lemma lexcmp_Eq p q : lexcmp p q = Eq <-> p = q.
Proof.
  destruct p as [[a b] c], q as [[a' b'] c']; simpl.
  destruct (Z.compare_spec a a'); destruct (Z.compare_spec b b');
    destruct (Z.compare_spec c c'); split; intros E; try discriminate;
    try reflexivity; try (injection E; intros; lia).
  subst; reflexivity.
Qed.

Lemma ltb_cmp x y : flt x y <-> fcmp x y = Some Lt.
Proof.
  unfold flt, fcmp. rewrite ltb_spec. unfold SFltb.
  destruct (SFcompare _ _) as [[]|]; split; congruence.
Qed.

Lemma ltb_false_cmp x y : (x <? y) = false <-> fcmp x y <> Some Lt.
Proof.
  unfold fcmp. rewrite ltb_spec. unfold SFltb.
  destruct (SFcompare _ _) as [[]|]; split; congruence.
Qed.

Lemma leb_cmp x y : fle x y <-> fcmp x y = Some Lt \/ fcmp x y = Some Eq.
Proof.
  unfold fle, fcmp. rewrite leb_spec. unfold SFleb.
  destruct (SFcompare _ _) as [[]|]; split; intuition congruence.
Qed.

Lemma eqb_cmp x y : (x =? y) = true <-> fcmp x y = Some Eq.
Proof.
  unfold fcmp. rewrite eqb_spec. unfold SFeqb.
  destruct (SFcompare _ _) as [[]|]; split; congruence.
Qed.

Lemma ordered_nan x : ordered x <-> is_nan_sf (Prim2SF x) = false.
Proof.
  unfold ordered. rewrite eqb_cmp. unfold fcmp.
  destruct (Prim2SF x) as [s|s| |s m e]; simpl; split; try congruence; intros _.
  - destruct s; reflexivity.
  - destruct s; rewrite Z.compare_refl, ?Pos.compare_cont_refl; reflexivity.
Qed.

Lemma fcmp_rank x y :
  ordered x -> ordered y -> fcmp x y = Some (lexcmp (frank x) (frank y)).
Proof.
  rewrite !ordered_nan. intros Hx Hy. now apply SFcompare_rank.
Qed.

Lemma fcmp_ordered x y c : fcmp x y = Some c -> ordered x /\ ordered y.
Proof. rewrite !ordered_nan. apply SFcompare_some. Qed.

(** Both comparisons in terms of ranks. *)
Lemma flt_rank x y :
  flt x y <-> ordered x /\ ordered y /\ lexcmp (frank x) (frank y) = Lt.
Proof.
  rewrite ltb_cmp. split.
  - intros H. destruct (fcmp_ordered _ _ _ H) as [Hx Hy].
    rewrite (fcmp_rank _ _ Hx Hy) in H. repeat split; congruence.
  - intros (Hx & Hy & H). rewrite (fcmp_rank _ _ Hx Hy). now rewrite H.
Qed.

Lemma fle_rank x y :
  fle x y <->
  ordered x /\ ordered y /\
  (lexcmp (frank x) (frank y) = Lt \/ frank x = frank y).
Proof.
  rewrite leb_cmp, <- lexcmp_Eq. split.
  - intros H.
    assert (Ho : ordered x /\ ordered y)
      by (destruct H as [H|H]; exact (fcmp_ordered _ _ _ H)).
    destruct Ho as [Hx Hy]. rewrite (fcmp_rank _ _ Hx Hy) in H.
    repeat split; trivial. destruct H as [H|H]; [left|right]; congruence.
  - intros (Hx & Hy & H). rewrite (fcmp_rank _ _ Hx Hy).
    destruct H as [H|H]; rewrite H; auto.
Qed.

Lemma fle_ordered x y : fle x y -> ordered x /\ ordered y.
Proof. rewrite fle_rank. tauto. Qed.

Lemma flt_ordered x y : flt x y -> ordered x /\ ordered y.
Proof. rewrite flt_rank. tauto. Qed.

Ltac ranks :=
  repeat match goal with
  | |- context [frank ?x] =>
      let a := fresh "a" in let b := fresh "b" in let c := fresh "c" in
      destruct (frank x) as [[a b] c]
  | H : context [frank ?x] |- _ =>
      let a := fresh "a" in let b := fresh "b" in let c := fresh "c" in
      destruct (frank x) as [[a b] c]
  end;
  repeat match goal with
  | H : context [lexcmp _ _ = Lt] |- _ => rewrite lexcmp_Lt in H
  | |- context [lexcmp _ _ = Lt] => rewrite lexcmp_Lt
  | H : (_, _, _) = (_, _, _) |- _ => injection H as ? ? ?
  end.

Lemma flt_fle x y : flt x y -> fle x y.
Proof. rewrite flt_rank, fle_rank. tauto. Qed.

Lemma fle_refl x : ordered x -> fle x x.
Proof. rewrite fle_rank. tauto. Qed.

Lemma flt_trans x y z : flt x y -> flt y z -> flt x z.
Proof.
  rewrite !flt_rank. intros (Hx & _ & H1) (_ & Hz & H2).
  repeat split; trivial. ranks. lia.
Qed.

Lemma fle_trans x y z : fle x y -> fle y z -> fle x z.
Proof.
  rewrite !fle_rank. intros (Hx & _ & H1) (_ & Hz & H2).
  repeat split; trivial.
  destruct H1 as [H1|H1], H2 as [H2|H2].
  - left. ranks. lia.
  - left. rewrite <- H2. exact H1.
  - left. rewrite H1. exact H2.
  - right. congruence.
Qed.

Lemma fle_flt_trans x y z : fle x y -> flt y z -> flt x z.
Proof.
  rewrite fle_rank, !flt_rank. intros (Hx & _ & H1) (_ & Hz & H2).
  repeat split; trivial.
  destruct H1 as [H1|H1].
  - ranks. lia.
  - rewrite H1. exact H2.
Qed.

Lemma flt_fle_trans x y z : flt x y -> fle y z -> flt x z.
Proof.
  rewrite fle_rank, !flt_rank. intros (Hx & _ & H1) (_ & Hz & H2).
  repeat split; trivial.
  destruct H2 as [H2|H2].
  - ranks. lia.
  - rewrite <- H2. exact H1.
Qed.

(** [x <= y] excludes [y < x]. *)
Lemma fle_not_flt x y : fle x y -> (y <? x) = false.
Proof.
  intros H. destruct (y <? x) eqn:E; trivial. exfalso.
  change (flt y x) in E. revert H E. rewrite fle_rank, flt_rank.
  intros (_ & _ & H1) (_ & _ & H2). destruct H1 as [H1|H1].
  - ranks. lia.
  - rewrite H1 in H2. ranks. lia.
Qed.

(** The order is total on values that are not NaN. *)
Lemma not_flt_fle x y : ordered x -> ordered y -> (x <? y) = false -> fle y x.
Proof.
  intros Hx Hy H. rewrite fle_rank. repeat split; trivial.
  assert (N : ~ flt x y) by (unfold flt; congruence).
  rewrite flt_rank in N.
  destruct (lexcmp (frank y) (frank x)) eqn:E.
  - right. now apply lexcmp_Eq.
  - now left.
  - exfalso. apply N. repeat split; trivial.
    destruct (frank x) as [[a b] c], (frank y) as [[a' b'] c'].
    rewrite lexcmp_Lt. simpl in E.
    destruct (Z.compare_spec a' a); destruct (Z.compare_spec b' b);
      destruct (Z.compare_spec c' c); try discriminate; lia.
Qed.

Lemma fle_antisym x y : fle x y -> fle y x -> (x =? y) = true.
Proof.
  rewrite !fle_rank. intros (Hx & Hy & H1) (_ & _ & H2).
  rewrite eqb_cmp, (fcmp_rank _ _ Hx Hy). f_equal. apply lexcmp_Eq.
  destruct H1 as [H1|H1]; trivial. destruct H2 as [H2|H2]; [|congruence].
  exfalso. ranks. lia.
Qed.

(** Two values that compare equal are the same value, signed zeros apart;
    in particular when one of them is positive. *)
Lemma feq_pos_eq x y : (x =? y) = true -> flt 0 x -> x = y.
Proof.
  intros E P. apply eqb_cmp in E.
  destruct (fcmp_ordered _ _ _ E) as [Hx Hy].
  rewrite (fcmp_rank _ _ Hx Hy) in E. injection E as E. apply lexcmp_Eq in E.
  apply flt_rank in P. destruct P as (_ & _ & P).
  apply Prim2SF_inj. unfold frank in *.
  change (Prim2SF 0) with (S754_zero false) in P.
  destruct (Prim2SF x) as [s|s| |s m e], (Prim2SF y) as [s'|s'| |s' m' e'];
    simpl in *; try destruct s; try destruct s'; try discriminate;
    try reflexivity; try (exfalso; apply lexcmp_Lt in P; lia);
    injection E; intros; subst; try lia; reflexivity.
Qed.

Lemma feq_sym x y : (x =? y) = true -> (y =? x) = true.
Proof.
  intros E. apply eqb_cmp in E.
  destruct (fcmp_ordered _ _ _ E) as [Hx Hy].
  rewrite (fcmp_rank _ _ Hx Hy) in E. injection E as E. apply lexcmp_Eq in E.
  apply eqb_cmp. rewrite (fcmp_rank _ _ Hy Hx). f_equal. apply lexcmp_Eq.
  congruence.
Qed.

(** The two strict comparisons that [min] and [max] use, as the selection
    lemmas below need them. *)
Lemma ltb_trans a b c :
  (a <? b) = true -> (b <? c) = true -> (a <? c) = true.
Proof. apply flt_trans. Qed.

Lemma ltb_negtrans a b c :
  ordered a -> ordered b -> ordered c ->
  (a <? b) = false -> (b <? c) = false -> (a <? c) = false.
Proof.
  intros Ha Hb Hc H1 H2. apply fle_not_flt.
  apply fle_trans with b; now apply not_flt_fle.
Qed.

Lemma gtb_trans a b c :
  (a >? b) = true -> (b >? c) = true -> (a >? c) = true.
Proof. unfold gtb. intros H1 H2. exact (flt_trans _ _ _ H2 H1). Qed.

Lemma gtb_negtrans a b c :
  ordered a -> ordered b -> ordered c ->
  (a >? b) = false -> (b >? c) = false -> (a >? c) = false.
Proof.
  unfold gtb. intros Ha Hb Hc H1 H2. apply fle_not_flt.
  apply fle_trans with b; now apply not_flt_fle.
Qed.

End FloatOrderFacts.

Import FloatOrderFacts.

(** ** Dictionaries *)

Lemma dict_get_in {V : Type} (d : dict V) k :
  In k (keys d) -> exists v, dict_get k d = Ok v /\ In (k, v) d.
Proof.
  induction d as [|[k' v'] d IH]; simpl; [tauto|].
  intros H. destruct (String.eqb_spec k k') as [->|N].
  - exists v'. auto.
  - destruct H as [H|H]; [congruence|].
    destruct (IH H) as (v & Hv & Hin). exists v. auto.
Qed.

Lemma dict_get_unique {V : Type} (d : dict V) k v :
  NoDup (keys d) -> In (k, v) d -> dict_get k d = Ok v.
Proof.
  induction d as [|[k' v'] d IH]; simpl; [tauto|].
  intros ND H. inversion ND as [|? ? Hn ND']; subst.
  destruct H as [H|H].
  - injection H as -> ->. now rewrite String.eqb_refl.
  - destruct (String.eqb_spec k k') as [->|N].
    + exfalso. apply Hn. unfold keys. change k' with (fst (k', v)).
      now apply in_map.
    + now apply IH.
Qed.

Lemma dict_set_keys {V : Type} (d : dict V) k v :
  keys (dict_set k v d) = if existsb (String.eqb k) (keys d)
                          then keys d else keys d ++ [k].
Proof.
  induction d as [|[k' v'] d IH]; simpl; trivial.
  destruct (String.eqb_spec k k') as [->|N]; simpl; trivial.
  rewrite IH. now destruct (existsb _ _).
Qed.

Lemma dict_set_NoDup {V : Type} (d : dict V) k v :
  NoDup (keys d) -> NoDup (keys (dict_set k v d)).
Proof.
  intros ND. rewrite dict_set_keys.
  destruct (existsb (String.eqb k) (keys d)) eqn:E; trivial.
  apply NoDup_app; trivial.
  - repeat constructor. simpl. tauto.
  - intros x Hx [->|[]].
    assert (existsb (String.eqb x) (keys d) = true); [|congruence].
    apply existsb_exists. exists x. split; trivial. apply String.eqb_refl.
Qed.

(** ** Selection by [min] and [max] *)

Section Selection.
Context {A : Type}.
Variable better : float -> float -> bool.
Variable key : A -> result float.
Variable f : A -> float.

(** Without any assumption on the keys, the selection returns an item of
    the list as soon as the key function does not raise on it. *)
Lemma min_max_loop_in l : forall item val,
  (forall x, In x l -> key x = Ok (f x)) ->
  exists r, min_max_loop better key item val l = Ok r /\ In r (item :: l).
Proof.
  induction l as [|y l IH]; intros item val Hk; simpl.
  - exists item. auto.
  - rewrite (Hk y) by (simpl; auto). simpl.
    destruct (better (f y) val).
    + destruct (IH y (f y)) as (r & -> & Hin); [intros; apply Hk; simpl; auto|].
      exists r. split; trivial. simpl in *. tauto.
    + destruct (IH item val) as (r & -> & Hin); [intros; apply Hk; simpl; auto|].
      exists r. split; trivial. simpl in *. tauto.
Qed.

Lemma min_max_in l :
  l <> [] -> (forall x, In x l -> key x = Ok (f x)) ->
  exists r, min_max better key l = Ok r /\ In r l.
Proof.
  destruct l as [|x l]; [congruence|]. intros _ Hk. simpl.
  rewrite (Hk x) by (simpl; auto). simpl.
  apply min_max_loop_in. intros; apply Hk; simpl; auto.
Qed.

(** On keys that [better] orders (the values satisfying [good]), the
    selection is the first of the best items: it beats every item before
    it and no item after it beats it. *)
Variable good : float -> Prop.
Hypothesis better_trans : forall a b c,
  better a b = true -> better b c = true -> better a c = true.
Hypothesis better_negtrans : forall a b c,
  good a -> good b -> good c ->
  better a b = false -> better b c = false -> better a c = false.

Lemma min_max_loop_first l : forall pre mid item,
  (forall x, In x l -> key x = Ok (f x)) ->
  (forall x, In x (pre ++ item :: mid ++ l) -> good (f x)) ->
  (forall x, In x pre -> better (f item) (f x) = true) ->
  (forall x, In x mid -> better (f x) (f item) = false) ->
  exists r l1 l2,
    min_max_loop better key item (f item) l = Ok r /\
    pre ++ item :: mid ++ l = l1 ++ r :: l2 /\
    (forall x, In x l1 -> better (f r) (f x) = true) /\
    (forall x, In x l2 -> better (f x) (f r) = false).
Proof.
  induction l as [|y l IH]; intros pre mid item Hk Hg Hpre Hmid; simpl.
  - exists item, pre, mid. rewrite app_nil_r. auto.
  - rewrite (Hk y) by (simpl; auto). simpl.
    assert (Hk' : forall x, In x l -> key x = Ok (f x))
      by (intros; apply Hk; simpl; auto).
    destruct (better (f y) (f item)) eqn:E.
    + destruct (IH (pre ++ item :: mid) [] y) as (r & l1 & l2 & Hr & Heq & H1 & H2);
        trivial.
      * intros x Hx. apply Hg. rewrite <- app_assoc in Hx. exact Hx.
      * intros x Hx. apply in_app_or in Hx. destruct Hx as [Hx|[<-|Hx]]; trivial.
        -- eapply better_trans; eauto.
        -- destruct (better (f y) (f x)) eqn:E'; trivial.
           assert (better (f y) (f item) = false); [|congruence].
           apply better_negtrans with (f x); auto;
             apply Hg; rewrite in_app_iff; simpl; rewrite in_app_iff; simpl;
             auto 10.
      * intros x [].
      * exists r, l1, l2. rewrite Hr. rewrite <- app_assoc in Heq. auto.
    + destruct (IH pre (mid ++ [y]) item) as (r & l1 & l2 & Hr & Heq & H1 & H2);
        trivial.
      * intros x Hx. apply Hg. rewrite <- app_assoc in Hx. exact Hx.
      * intros x Hx. apply in_app_or in Hx. destruct Hx as [Hx|[<-|[]]]; auto.
      * exists r, l1, l2. rewrite Hr. rewrite <- app_assoc in Heq. auto.
Qed.

Lemma min_max_first l :
  l <> [] ->
  (forall x, In x l -> key x = Ok (f x)) ->
  (forall x, In x l -> good (f x)) ->
  exists r l1 l2,
    min_max better key l = Ok r /\
    l = l1 ++ r :: l2 /\
    (forall x, In x l1 -> better (f r) (f x) = true) /\
    (forall x, In x l2 -> better (f x) (f r) = false).
Proof.
  destruct l as [|x l]; [congruence|]. intros _ Hk Hg. simpl.
  rewrite (Hk x) by (simpl; auto). simpl.
  apply (min_max_loop_first l [] [] x); simpl; trivial; try tauto.
  intros; apply Hk; simpl; auto.
Qed.
End Selection.

(** ** The two selections of the detector *)

Section DictSelection.
Variable better : float -> float -> bool.
Variable proj : quote -> float.

Lemma key_of_value prices x :
  In x (keys prices) -> key_of proj prices x = Ok (value_at proj prices x).
Proof.
  intros H. unfold key_of, value_at.
  destruct (dict_get_in prices x H) as (q & -> & _). reflexivity.
Qed.

Lemma dict_select_in prices :
  prices <> [] ->
  exists k q,
    min_max better (key_of proj prices) (keys prices) = Ok k /\
    dict_get k prices = Ok q /\ In (k, q) prices.
Proof.
  intros Hne.
  destruct (min_max_in better (key_of proj prices) (value_at proj prices) (keys prices))
    as (k & Hk & Hin).
  - destruct prices; [congruence|discriminate].
  - intros x Hx. now apply key_of_value.
  - destruct (dict_get_in prices k Hin) as (q & Hq & Hq'). eauto.
Qed.

Variable good : float -> Prop.
Hypothesis better_trans : forall a b c,
  better a b = true -> better b c = true -> better a c = true.
Hypothesis better_negtrans : forall a b c,
  good a -> good b -> good c ->
  better a b = false -> better b c = false -> better a c = false.

Lemma dict_select_first prices :
  prices <> [] ->
  NoDup (keys prices) ->
  (forall k q, In (k, q) prices -> good (proj q)) ->
  exists l1 k q l2,
    prices = l1 ++ (k, q) :: l2 /\
    min_max better (key_of proj prices) (keys prices) = Ok k /\
    dict_get k prices = Ok q /\
    (forall k' q', In (k', q') l1 -> better (proj q) (proj q') = true) /\
    (forall k' q', In (k', q') l2 -> better (proj q') (proj q) = false).
Proof.
  intros Hne ND Hg.
  assert (Hval : forall k q, In (k, q) prices -> value_at proj prices k = proj q).
  { intros k q Hin. unfold value_at. now rewrite (dict_get_unique prices k q). }
  destruct (min_max_first better (key_of proj prices) (value_at proj prices) good
              better_trans better_negtrans (keys prices))
    as (k & l1' & l2' & Hk & Heq & H1 & H2).
  - destruct prices; [congruence|discriminate].
  - intros x Hx. now apply key_of_value.
  - intros x Hx. destruct (dict_get_in prices x Hx) as (q & Hq & Hin).
    rewrite (Hval _ _ Hin). eauto.
  - unfold keys in Heq. apply map_eq_app in Heq.
    destruct Heq as (l1 & rest & -> & <- & Hrest).
    apply map_eq_cons in Hrest. destruct Hrest as ([k0 q] & l2 & -> & Hk0 & <-).
    simpl in Hk0. subst k0.
    assert (Hq : value_at proj (l1 ++ (k, q) :: l2) k = proj q)
      by (apply Hval, in_elt).
    exists l1, k, q, l2. repeat split; trivial.
    + apply dict_get_unique; trivial. apply in_elt.
    + intros k' q' Hin. rewrite <- Hq.
      rewrite <- (Hval k' q') by (apply in_or_app; auto).
      apply H1. change k' with (fst (k', q')). now apply in_map.
    + intros k' q' Hin. rewrite <- Hq.
      rewrite <- (Hval k' q') by (apply in_or_app; simpl; auto).
      apply H2. change k' with (fst (k', q')). now apply in_map.
Qed.
End DictSelection.

(** ** The detector *)

Lemma detect_short prices symbol :
  List.length prices < 2 -> detect prices symbol = Ok [].
Proof.
  intros H. unfold detect.
  destruct (Nat.leb_spec 2 (List.length prices)); [lia|reflexivity].
Qed.

(** With two quotes or more both selections succeed, and the result is
    decided by the two guards of lines 61 and 64. *)
Lemma detect_long prices symbol :
  2 <= List.length prices ->
  exists kb qa ks qb,
    select_lowest_ask prices = Ok kb /\
    dict_get kb prices = Ok qa /\ In (kb, qa) prices /\
    select_highest_bid prices = Ok ks /\
    dict_get ks prices = Ok qb /\ In (ks, qb) prices /\
    detect prices symbol =
      if (ask qa >? 0) && (bid qb >? ask qa) then
        if percent (bid qb) (ask qa) >? 0.1
        then Ok [the_opportunity symbol kb ks qa qb]
        else Ok []
      else Ok [].
Proof.
  intros H.
  assert (Hne : prices <> []) by (destruct prices; simpl in H; [lia|discriminate]).
  destruct (dict_select_in ltb ask prices Hne) as (kb & qa & Hkb & Hqa & Hina).
  destruct (dict_select_in gtb bid prices Hne) as (ks & qb & Hks & Hqb & Hinb).
  exists kb, qa, ks, qb.
  change (select_lowest_ask prices = Ok kb) in Hkb.
  change (select_highest_bid prices = Ok ks) in Hks.
  repeat split; trivial.
  unfold detect.
  destruct (Nat.leb_spec 2 (List.length prices)); [|lia].
  rewrite Hkb, Hks. simpl. rewrite Hqa, Hqb. reflexivity.
Qed.

(** The detector never raises. *)
Lemma detect_total prices symbol : exists l, detect prices symbol = Ok l.
Proof.
  destruct (Nat.lt_ge_cases (List.length prices) 2) as [H|H].
  - exists []. now apply detect_short.
  - destruct (detect_long prices symbol H) as (kb & qa & ks & qb & _ & _ & _ & _ & _ & _ & ->).
    destruct (_ && _); [destruct (_ >? _)|]; eauto.
Qed.

(** What an emitted opportunity tells. *)
Lemma detect_emits prices symbol l opp :
  detect prices symbol = Ok l -> In opp l ->
  exists kb qa ks qb,
    2 <= List.length prices /\
    select_lowest_ask prices = Ok kb /\ In (kb, qa) prices /\
    select_highest_bid prices = Ok ks /\ In (ks, qb) prices /\
    flt 0 (ask qa) /\ flt (ask qa) (bid qb) /\
    flt 0.1 (percent (bid qb) (ask qa)) /\
    opp = the_opportunity symbol kb ks qa qb /\ l = [opp].
Proof.
  intros Hd Hin.
  destruct (Nat.lt_ge_cases (List.length prices) 2) as [H|H].
  - rewrite (detect_short _ _ H) in Hd. injection Hd as <-. destruct Hin.
  - destruct (detect_long prices symbol H)
      as (kb & qa & ks & qb & Hkb & _ & Hina & Hks & _ & Hinb & Hdet).
    rewrite Hdet in Hd. exists kb, qa, ks, qb.
    destruct (ask qa >? 0) eqn:G1; simpl in Hd;
      [|injection Hd as <-; destruct Hin].
    destruct (bid qb >? ask qa) eqn:G2; simpl in Hd;
      [|injection Hd as <-; destruct Hin].
    destruct (percent (bid qb) (ask qa) >? 0.1) eqn:G3;
      [|injection Hd as <-; destruct Hin].
    injection Hd as <-. destruct Hin as [<-|[]].
    repeat split; trivial.
Qed.

Lemma get_arbitrage_opportunities_detect self symbol :
  detect (fetch_prices self symbol) symbol
  = Ok (get_arbitrage_opportunities self symbol).
Proof.
  unfold get_arbitrage_opportunities.
  destruct (detect_total (fetch_prices self symbol) symbol) as (l & ->).
  reflexivity.
Qed.

(** ** The stable descending sort *)

Section SortDescFacts.
Context {A : Type}.
Variable key : A -> float.

Lemma insert_desc_perm x l : Permutation (x :: l) (insert_desc key x l).
Proof.
  induction l as [|y l IH]; simpl; trivial.
  destruct (key x <? key y); trivial.
  rewrite perm_swap. now constructor.
Qed.

Lemma sort_desc_perm l : Permutation l (sort_desc key l).
Proof.
  induction l as [|x l IH]; simpl; trivial.
  rewrite <- insert_desc_perm. now constructor.
Qed.

Lemma insert_desc_sorted x l :
  ordered (key x) -> Forall (fun y => ordered (key y)) l ->
  StronglySorted (desc key) l -> StronglySorted (desc key) (insert_desc key x l).
Proof.
  intros Hx Hl Hs. induction Hs as [|y l Hs IH Hy]; simpl.
  - repeat constructor.
  - inversion Hl as [|? ? Hoy Hl']; subst.
    destruct (key x <? key y) eqn:E.
    + constructor; [now apply IH|].
      apply (Permutation_Forall (insert_desc_perm x l)).
      constructor; trivial. apply flt_fle. exact E.
    + assert (Hyx : fle (key y) (key x)) by now apply not_flt_fle.
      constructor; [now constructor|].
      constructor; trivial.
      eapply Forall_impl; [|exact Hy].
      intros z Hz. unfold desc in *. now apply fle_trans with (key y).
Qed.

Lemma sort_desc_sorted l :
  Forall (fun y => ordered (key y)) l -> StronglySorted (desc key) (sort_desc key l).
Proof.
  induction l as [|x l IH]; simpl; intros H; [constructor|].
  inversion H as [|? ? Hx Hl]; subst.
  apply insert_desc_sorted; auto.
  apply (Permutation_Forall (sort_desc_perm l)). exact Hl.
Qed.

Lemma firstn_sorted n l :
  StronglySorted (desc key) l -> StronglySorted (desc key) (firstn n l).
Proof.
  intros Hs. revert n. induction Hs as [|y l Hs IH Hy]; intros [|n]; simpl;
    try constructor; auto.
  rewrite Forall_forall in *. intros z Hz. apply Hy.
  rewrite <- (firstn_skipn n l). apply in_or_app. now left.
Qed.
End SortDescFacts.

(** ** The scanner *)

Lemma scan_loop get pairs : forall acc,
  fold_left
    (fun all_opportunities pair =>
       try_except
         (opportunities <- get pair ;; Ok (all_opportunities ++ opportunities))
         (fun _ => all_opportunities))
    pairs acc
  = acc ++ flat_map (found get) pairs.
Proof.
  induction pairs as [|p pairs IH]; intros acc; simpl.
  - now rewrite app_nil_r.
  - rewrite IH. unfold found at 2. destruct (get p); simpl.
    + now rewrite app_assoc.
    + reflexivity.
Qed.

Lemma scan_pairs_ranked get :
  scan_pairs get = ranked (flat_map (found get) common_pairs).
Proof. unfold scan_pairs. now rewrite scan_loop. Qed.

Lemma scan_multiple_pairs_ranked self :
  scan_multiple_pairs self
  = ranked (flat_map (get_arbitrage_opportunities self) common_pairs).
Proof. unfold scan_multiple_pairs. now rewrite scan_pairs_ranked. Qed.

(** A pair that contributes nothing can be left out. *)
Lemma flat_map_skip {B : Type} (g : string -> list B) (failed : string) pairs :
  g failed = [] ->
  flat_map g pairs
  = flat_map g (filter (fun p => negb (String.eqb p failed)) pairs).
Proof.
  intros H. induction pairs as [|p pairs IH]; simpl; trivial.
  destruct (String.eqb_spec p failed) as [->|N]; simpl.
  - now rewrite H.
  - now rewrite IH.
Qed.

(** ** Collecting the quotes *)

Lemma fetch_price_skip symbol prices name exchange :
  supplies_quote exchange symbol = false ->
  fetch_price symbol prices (name, exchange) = prices.
Proof.
  unfold supplies_quote, fetch_price.
  destruct (fetch_ticker exchange symbol) as [t|e]; simpl; trivial.
  destruct (ticker_bid t), (ticker_ask t); trivial. now intros ->.
Qed.

Lemma fetch_prices_none self symbol :
  (forall name exchange, In (name, exchange) (exchanges self) ->
     supplies_quote exchange symbol = false) ->
  fetch_prices self symbol = [].
Proof.
  unfold fetch_prices. generalize (@nil (string * quote)).
  induction (exchanges self) as [|[name ex] l IH]; intros acc H;
    cbn [fold_left]; trivial.
  rewrite fetch_price_skip by (apply (H name); simpl; auto).
  apply IH. intros n e Hin. apply (H n). simpl; auto.
Qed.

(** [prices] is a dictionary: no exchange occurs twice in it. *)
Lemma fetch_prices_NoDup self symbol : NoDup (keys (fetch_prices self symbol)).
Proof.
  unfold fetch_prices.
  assert (H : NoDup (keys (@nil (string * quote)))) by constructor.
  revert H. generalize (@nil (string * quote)).
  induction (exchanges self) as [|[name ex] l IH]; intros acc H;
    cbn [fold_left]; trivial.
  apply IH. unfold fetch_price.
  destruct (fetch_ticker ex symbol) as [t|e]; simpl; trivial.
  destruct (ticker_bid t), (ticker_ask t); trivial.
  destruct (_ && _); trivial. now apply dict_set_NoDup.
Qed.

(** ** The selections find the extrema *)

Lemma in_asks prices k q : In (k, q) prices -> In (ask q) (asks prices).
Proof. intros H. exact (in_map (fun e => ask (snd e)) _ _ H). Qed.

Lemma in_bids prices k q : In (k, q) prices -> In (bid q) (bids prices).
Proof. intros H. exact (in_map (fun e => bid (snd e)) _ _ H). Qed.

Lemma lowest_ask_first prices min_ask :
  NoDup (keys prices) -> is_min_ask prices min_ask ->
  exists l1 kb qa l2,
    prices = l1 ++ (kb, qa) :: l2 /\
    select_lowest_ask prices = Ok kb /\
    dict_get kb prices = Ok qa /\
    (ask qa =? min_ask) = true /\
    (forall k q, In (k, q) l1 -> flt min_ask (ask q)).
Proof.
  intros ND [Hin Hmin].
  assert (Hne : prices <> []) by (intros ->; destruct Hin).
  destruct (dict_select_first ltb ask ordered ltb_trans ltb_negtrans prices Hne ND)
    as (l1 & kb & qa & l2 & Heq & Hk & Hq & H1 & H2).
  { intros k q Hq. exact (proj2 (fle_ordered _ _ (Hmin _ (in_asks _ _ _ Hq)))). }
  assert (Hle : fle min_ask (ask qa)).
  { apply Hmin. apply (in_asks prices kb). rewrite Heq. apply in_elt. }
  assert (Hge : fle (ask qa) min_ask).
  { unfold asks in Hin. apply in_map_iff in Hin. destruct Hin as ([k0 q0] & Em & Hin0).
    simpl in Em. rewrite <- Em. rewrite Heq in Hin0. apply in_app_or in Hin0.
    destruct Hin0 as [Hin0|[Hin0|Hin0]].
    - apply flt_fle. exact (H1 _ _ Hin0).
    - injection Hin0 as _ <-. exact (fle_refl _ (proj2 (fle_ordered _ _ Hle))).
    - apply not_flt_fle; [| |exact (H2 _ _ Hin0)].
      + apply (fle_ordered min_ask). apply Hmin, (in_asks prices k0).
        rewrite Heq. apply in_or_app. simpl. auto.
      + exact (proj2 (fle_ordered _ _ Hle)). }
  exists l1, kb, qa, l2. repeat split; trivial.
  - now apply fle_antisym.
  - intros k q Hq'. apply fle_flt_trans with (ask qa); trivial. exact (H1 _ _ Hq').
Qed.

Lemma highest_bid_first prices max_bid :
  NoDup (keys prices) -> is_max_bid prices max_bid ->
  exists m1 ks qb m2,
    prices = m1 ++ (ks, qb) :: m2 /\
    select_highest_bid prices = Ok ks /\
    dict_get ks prices = Ok qb /\
    (bid qb =? max_bid) = true /\
    (forall k q, In (k, q) m1 -> flt (bid q) max_bid).
Proof.
  intros ND [Hin Hmax].
  assert (Hne : prices <> []) by (intros ->; destruct Hin).
  destruct (dict_select_first gtb bid ordered gtb_trans gtb_negtrans prices Hne ND)
    as (m1 & ks & qb & m2 & Heq & Hk & Hq & H1 & H2).
  { intros k q Hq. exact (proj1 (fle_ordered _ _ (Hmax _ (in_bids _ _ _ Hq)))). }
  assert (Hle : fle (bid qb) max_bid).
  { apply Hmax. apply (in_bids prices ks). rewrite Heq. apply in_elt. }
  assert (Hge : fle max_bid (bid qb)).
  { unfold bids in Hin. apply in_map_iff in Hin. destruct Hin as ([k0 q0] & Em & Hin0).
    simpl in Em. rewrite <- Em. rewrite Heq in Hin0. apply in_app_or in Hin0.
    destruct Hin0 as [Hin0|[Hin0|Hin0]].
    - apply flt_fle. exact (H1 _ _ Hin0).
    - injection Hin0 as _ <-. exact (fle_refl _ (proj1 (fle_ordered _ _ Hle))).
    - apply not_flt_fle; [| |exact (H2 _ _ Hin0)].
      + exact (proj1 (fle_ordered _ _ Hle)).
      + apply (fle_ordered (bid q0) max_bid). apply Hmax, (in_bids prices k0).
        rewrite Heq. apply in_or_app. simpl. auto. }
  exists m1, ks, qb, m2. repeat split; trivial.
  - now apply fle_antisym.
  - intros k q Hq'. apply flt_fle_trans with (bid qb); trivial. exact (H1 _ _ Hq').
Qed.

(** On a quote set with a positive minimum ask below its maximum bid, the
    two prices that line 61 tests are exactly these two. *)
Lemma detect_extrema prices symbol max_bid min_ask :
  NoDup (keys prices) -> 2 <= List.length prices ->
  is_max_bid prices max_bid -> is_min_ask prices min_ask ->
  exists kb ks qa qb,
    (ask qa =? min_ask) = true /\ (bid qb =? max_bid) = true /\
    detect prices symbol =
      if (ask qa >? 0) && (bid qb >? ask qa) then
        if percent (bid qb) (ask qa) >? 0.1
        then Ok [the_opportunity symbol kb ks qa qb]
        else Ok []
      else Ok [].
Proof.
  intros ND Hlen Hmax Hmin.
  destruct (lowest_ask_first prices min_ask ND Hmin)
    as (l1 & kb & qa & l2 & _ & Hkb & Hqa & Ea & _).
  destruct (highest_bid_first prices max_bid ND Hmax)
    as (m1 & ks & qb & m2 & _ & Hks & Hqb & Eb & _).
  destruct (detect_long prices symbol Hlen)
    as (kb' & qa' & ks' & qb' & Hkb' & Hqa' & _ & Hks' & Hqb' & _ & Hdet).
  assert (kb' = kb) by congruence. assert (ks' = ks) by congruence. subst.
  assert (qa' = qa) by congruence. assert (qb' = qb) by congruence. subst.
  exists kb, ks, qa, qb. auto.
Qed.

(** ** What the bot returns *)

(** The properties of the detector carry over to the bot, whose quote set
    is the dictionary that [fetch_prices] builds. *)
Lemma get_arbitrage_opportunities_emits self symbol opp :
  In opp (get_arbitrage_opportunities self symbol) ->
  get_arbitrage_opportunities self symbol = [opp] /\
  flt 0 (buy_price opp) /\
  flt (buy_price opp) (sell_price opp) /\
  flt 0.1 (profit_percent opp) /\
  profit_percent opp = percent (sell_price opp) (buy_price opp).
Proof.
  intros Hin.
  destruct (detect_emits _ _ _ opp (get_arbitrage_opportunities_detect self symbol) Hin)
    as (kb & qa & ks & qb & _ & _ & _ & _ & _ & Hpos & Hlt & Hpct & E & Hl).
  subst opp. simpl. auto.
Qed.

Lemma scan_multiple_pairs_emits self opp :
  In opp (scan_multiple_pairs self) ->
  exists pair, In pair common_pairs /\
               In opp (get_arbitrage_opportunities self pair).
Proof.
  rewrite scan_multiple_pairs_ranked. unfold ranked. intros Hin.
  assert (Hin' : In opp (sort_desc profit_percent
                    (flat_map (get_arbitrage_opportunities self) common_pairs))).
  { rewrite <- (firstn_skipn 5 (sort_desc _ _)). apply in_or_app. now left. }
  apply (Permutation_in _ (Permutation_sym (sort_desc_perm profit_percent _))) in Hin'.
  apply in_flat_map in Hin'. exact Hin'.
Qed.

(** * The properties of the design document *)

Ltac in_list :=
  repeat match goal with
  | H : In _ (_ :: _) |- _ => destruct H as [H|H]
  | H : In _ [] |- _ => destruct H
  | H : _ \/ _ |- _ => destruct H as [H|H]
  | H : False |- _ => destruct H
  | H : (_, _) = (_, _) |- _ => injection H as ? ?
  end; subst.

Ltac nodup_keys :=
  repeat (constructor; [simpl; intuition discriminate|]); constructor.

Ltac extremum :=
  split; [simpl; auto 6|];
  let a := fresh "a" in let H := fresh "H" in
  intros a H; simpl in H;
  repeat (destruct H as [H|H]; [subst a; vm_compute; reflexivity|]);
  destruct H.

(** ** C1 *)

(** C1.  On every quote set with at least two entries (a dictionary, so its
    exchanges are distinct; and with a positive minimum ask, as a QuoteSet
    holds positive prices only) whose maximum bid exceeds its minimum ask
    and whose implied percentage exceeds the threshold 0.1, the detector
    returns one opportunity; its [buy_price] is the minimum ask, its
    [sell_price] the maximum bid and its [profit_percent] is
    [(max_bid - min_ask) / min_ask * 100], in binary64 arithmetic as the
    code computes it. *)
Theorem detect_best_spread prices symbol max_bid min_ask :
  NoDup (keys prices) ->
  2 <= List.length prices ->
  is_max_bid prices max_bid ->
  is_min_ask prices min_ask ->
  flt 0 min_ask ->
  flt min_ask max_bid ->
  flt 0.1 ((max_bid - min_ask) / min_ask * 100) ->
  exists buy sell,
    detect prices symbol
    = Ok [ {| buy_at := buy;
              sell_at := sell;
              buy_price := min_ask;
              sell_price := max_bid;
              profit_percent := (max_bid - min_ask) / min_ask * 100;
              symbol := symbol |} ].
Proof.
  intros ND Hlen Hmax Hmin Hpos Hlt Hpct.
  destruct (detect_extrema prices symbol max_bid min_ask ND Hlen Hmax Hmin)
    as (kb & ks & qa & qb & Ea & Eb & Hdet).
  assert (Ha : min_ask = ask qa) by (apply feq_pos_eq; [now apply feq_sym|trivial]).
  assert (Hb : max_bid = bid qb).
  { apply feq_pos_eq; [now apply feq_sym|]. now apply flt_trans with min_ask. }
  exists kb, ks. rewrite Hdet. unfold the_opportunity, percent, gtb.
  rewrite <- Ha, <- Hb. unfold flt in Hpos, Hlt, Hpct.
  now rewrite Hpos, Hlt, Hpct.
Qed.

(** The document's example: buy at binance at 50010, sell at kucoin at
    50200; the profit is the binary64 value that Python prints as
    0.3799240151969606, that is 0.380 with three decimals. *)
Lemma detect_best_spread_example :
  (exists buy sell,
     detect spec_example_quotes "BTC/USDT"
     = Ok [ {| buy_at := buy;
               sell_at := sell;
               buy_price := 50010;
               sell_price := 50200;
               profit_percent := (50200 - 50010) / 50010 * 100;
               symbol := "BTC/USDT" |} ]) /\
  detect spec_example_quotes "BTC/USDT"
  = Ok [spec_example_opportunity] /\
  (0.3795 <=? 0.3799240151969606) = true /\
  (0.3799240151969606 <? 0.3805) = true.
Proof.
  split; [|repeat split; vm_compute; reflexivity].
  apply (detect_best_spread spec_example_quotes "BTC/USDT" 50200 50010).
  - nodup_keys.
  - simpl; lia.
  - extremum.
  - extremum.
  - vm_compute; reflexivity.
  - vm_compute; reflexivity.
  - vm_compute; reflexivity.
Defined.

(** ** C2 *)

(** C2.  Every opportunity that the detector emits, on any quote set, has
    [sell_price > buy_price > 0]. *)
Theorem emitted_prices_ordered prices symbol l opp :
  detect prices symbol = Ok l -> In opp l ->
  flt (buy_price opp) (sell_price opp) /\ flt 0 (buy_price opp).
Proof.
  intros Hd Hin.
  destruct (detect_emits prices symbol l opp Hd Hin)
    as (kb & qa & ks & qb & _ & _ & _ & _ & _ & Hpos & Hlt & _ & -> & _).
  simpl. auto.
Qed.

Lemma emitted_prices_ordered_example :
  flt 50010 50200 /\ flt 0 50010.
Proof.
  apply (emitted_prices_ordered spec_example_quotes "BTC/USDT"
           [spec_example_opportunity] spec_example_opportunity).
  - vm_compute; reflexivity.
  - simpl; auto.
Defined.

(** ** C3 *)

(** C3.  When the maximum bid is at most the minimum ask, the detector
    returns the empty list, and returns it normally. *)
Theorem no_spread_no_result prices symbol max_bid min_ask :
  is_max_bid prices max_bid ->
  is_min_ask prices min_ask ->
  fle max_bid min_ask ->
  detect prices symbol = Ok [].
Proof.
  intros [_ Hmax] [_ Hmin] Hle.
  destruct (Nat.lt_ge_cases (List.length prices) 2) as [H|H].
  - now apply detect_short.
  - destruct (detect_long prices symbol H)
      as (kb & qa & ks & qb & _ & _ & Hina & _ & _ & Hinb & ->).
    assert (Hno : (bid qb >? ask qa) = false).
    { unfold gtb. apply fle_not_flt.
      apply fle_trans with max_bid; [exact (Hmax _ (in_bids _ _ _ Hinb))|].
      apply fle_trans with min_ask; [exact Hle|].
      exact (Hmin _ (in_asks _ _ _ Hina)). }
    rewrite Hno, andb_false_r. reflexivity.
Qed.

Lemma no_spread_no_result_example :
  detect no_spread_quotes "BTC/USDT" = Ok [].
Proof.
  apply (no_spread_no_result no_spread_quotes "BTC/USDT" 100.05 100.9).
  - extremum.
  - extremum.
  - vm_compute; reflexivity.
Defined.

(** ** C4 *)

(** C4.  With fewer than two quotes the detector returns the empty list,
    as a normal result and not as an exception. *)
Theorem too_few_quotes_no_result prices symbol :
  List.length prices < 2 -> detect prices symbol = Ok [].
Proof. apply detect_short. Qed.

Lemma too_few_quotes_no_result_example :
  detect [("binance"%string, mk_quote 50000 50010)] "BTC/USDT" = Ok [].
Proof.
  apply (too_few_quotes_no_result [("binance"%string, mk_quote 50000 50010)]).
  simpl; lia.
Defined.

(** ** C5 *)

(** C5 as the document states it, with a threshold that the caller could
    set, fails: the detector takes no threshold, and with 1 (percent) in
    that role the example's opportunity of 0.38 percent is still emitted. *)
Lemma threshold_is_not_configurable :
  ~ (forall (min_profit_percent : float) prices symbol l opp,
       detect prices symbol = Ok l -> In opp l ->
       flt min_profit_percent (profit_percent opp)).
Proof.
  intros H.
  assert (E : detect spec_example_quotes "BTC/USDT"
              = Ok [spec_example_opportunity])
    by (vm_compute; reflexivity).
  specialize (H 1 _ _ _ _ E (or_introl eq_refl)).
  vm_compute in H. discriminate H.
Qed.

(** C5, amended.  The threshold is the constant 0.1 of line 64: an emitted
    opportunity has a [profit_percent] strictly above 0.1, which is the
    percentage of its own two prices; and a quote set whose best spread is
    at most 0.1 percent yields the empty list. *)
Theorem threshold_is_strict prices symbol :
  (forall l opp,
     detect prices symbol = Ok l -> In opp l ->
     flt 0.1 (profit_percent opp) /\
     profit_percent opp
     = (sell_price opp - buy_price opp) / buy_price opp * 100) /\
  (forall max_bid min_ask,
     NoDup (keys prices) ->
     is_max_bid prices max_bid -> is_min_ask prices min_ask ->
     fle ((max_bid - min_ask) / min_ask * 100) 0.1 ->
     detect prices symbol = Ok []).
Proof.
  split.
  - intros l opp Hd Hin.
    destruct (detect_emits prices symbol l opp Hd Hin)
      as (kb & qa & ks & qb & _ & _ & _ & _ & _ & _ & _ & Hpct & -> & _).
    simpl. split; [exact Hpct|reflexivity].
  - intros max_bid min_ask ND Hmax Hmin Hle.
    destruct (Nat.lt_ge_cases (List.length prices) 2) as [H|H].
    + now apply detect_short.
    + destruct (detect_extrema prices symbol max_bid min_ask ND H Hmax Hmin)
        as (kb & ks & qa & qb & Ea & Eb & ->).
      destruct (ask qa >? 0) eqn:G1; trivial.
      destruct (bid qb >? ask qa) eqn:G2; trivial. simpl.
      assert (Ha : ask qa = min_ask) by now apply feq_pos_eq.
      assert (Hb : bid qb = max_bid).
      { apply feq_pos_eq; trivial. now apply flt_trans with (ask qa). }
      rewrite Ha, Hb. unfold percent, gtb.
      now rewrite (fle_not_flt _ _ Hle).
Qed.

(** A spread of exactly 0.1 percent in binary64 (bid 1001 against ask 1000)
    is not emitted, one above it is. *)
Lemma threshold_is_strict_example :
  flt 0.1 0.3799240151969606 /\
  detect [("A"%string, mk_quote 999 1000); ("B"%string, mk_quote 1001 1002)]
         "BTC/USDT" = Ok [].
Proof.
  split.
  - apply (proj1 (threshold_is_strict spec_example_quotes "BTC/USDT")
             [spec_example_opportunity] spec_example_opportunity).
    + vm_compute; reflexivity.
    + simpl; auto.
  - apply (proj2 (threshold_is_strict _ "BTC/USDT") 1001 1000).
    + nodup_keys.
    + extremum.
    + extremum.
    + vm_compute; reflexivity.
Defined.

(** ** C6 *)

(** C6.  The list that [scan_multiple_pairs] returns is in descending order
    of [profit_percent] (every element is at least as profitable as every
    later one) and has at most five elements. *)
Theorem scan_sorted_top_five self :
  StronglySorted (fun a b => fle (profit_percent b) (profit_percent a))
    (scan_multiple_pairs self) /\
  List.length (scan_multiple_pairs self) <= 5.
Proof.
  rewrite scan_multiple_pairs_ranked. unfold ranked. split.
  - apply (firstn_sorted profit_percent), sort_desc_sorted.
    apply Forall_forall. intros opp Hin. apply in_flat_map in Hin.
    destruct Hin as (pair & _ & Hin).
    destruct (get_arbitrage_opportunities_emits _ _ _ Hin) as (_ & _ & _ & Hpct & _).
    exact (proj2 (flt_ordered _ _ Hpct)).
  - apply firstn_le_length.
Qed.

(** ** C7 *)

(** C7.  A pair whose scan fails does not abort the scan.  Whether the
    per-pair procedure raises for [failed], or every exchange raises when
    asked for [failed], the scanner returns the ranking of what the other
    pairs yield, in their order. *)
Theorem scan_isolates_failures (failed : string) :
  (forall get e,
     get failed = Raise e ->
     scan_pairs get = ranked (flat_map (found get) (other_pairs failed))) /\
  (forall self,
     (forall name exchange, In (name, exchange) (exchanges self) ->
        exists e, fetch_ticker exchange failed = Raise e) ->
     scan_multiple_pairs self
     = ranked (flat_map (get_arbitrage_opportunities self) (other_pairs failed))).
Proof.
  split.
  - intros get e He. rewrite scan_pairs_ranked. f_equal.
    apply flat_map_skip. unfold found. now rewrite He.
  - intros self Hall. rewrite scan_multiple_pairs_ranked. f_equal.
    apply flat_map_skip.
    assert (E : fetch_prices self failed = []).
    { apply fetch_prices_none. intros name ex Hin.
      destruct (Hall name ex Hin) as (e & He). unfold supplies_quote.
      now rewrite He. }
    unfold get_arbitrage_opportunities. now rewrite E.
Qed.

(** The scan of ETH/USDT raises, or both exchanges that quote are down for
    ETH/USDT: the four other pairs are still reported. *)
Lemma scan_isolates_failures_example :
  (scan_pairs raising_get
   = ranked (flat_map (found raising_get)
               ["BTC/USDT"; "ADA/USDT"; "DOT/USDT"; "LINK/USDT"]%string) /\
   map symbol (scan_pairs raising_get)
   = ["BTC/USDT"; "ADA/USDT"; "DOT/USDT"; "LINK/USDT"]%string) /\
  (scan_multiple_pairs patchy_bot
   = ranked (flat_map (get_arbitrage_opportunities patchy_bot)
               ["BTC/USDT"; "ADA/USDT"; "DOT/USDT"; "LINK/USDT"]%string) /\
   map symbol (scan_multiple_pairs patchy_bot)
   = ["BTC/USDT"; "ADA/USDT"; "DOT/USDT"; "LINK/USDT"]%string).
Proof.
  split; (split; [|vm_compute; reflexivity]).
  - apply (proj1 (scan_isolates_failures "ETH/USDT") raising_get ValueError).
    reflexivity.
  - apply (proj2 (scan_isolates_failures "ETH/USDT") patchy_bot).
    intros name ex Hin. simpl in Hin. in_list; simpl; eauto.
Defined.

(** ** C8 *)

(** C8 as the document states it fails: with no exchange reachable the
    caller gets the same value, the empty list, as from two exchanges that
    quote the same prices, and nothing else is returned. *)
Lemma no_data_looks_like_no_spread :
  ~ (forall self_no_data self_no_spread symbol,
       (forall name exchange, In (name, exchange) (exchanges self_no_data) ->
          supplies_quote exchange symbol = false) ->
       (exists name exchange, In (name, exchange) (exchanges self_no_spread) /\
          supplies_quote exchange symbol = true) ->
       get_arbitrage_opportunities self_no_spread symbol = [] ->
       get_arbitrage_opportunities self_no_data symbol
       <> get_arbitrage_opportunities self_no_spread symbol).
Proof.
  intros H.
  apply (H unreachable_bot flat_bot "BTC/USDT"%string).
  - intros name ex Hin. simpl in Hin. in_list; reflexivity.
  - exists "binance"%string, (quoting 100 101). split; [simpl; auto|reflexivity].
  - vm_compute; reflexivity.
  - vm_compute; reflexivity.
Qed.

(** C8, amended.  When no exchange supplies a quote for the symbol,
    [get_arbitrage_opportunities] returns the empty list, the value it also
    returns when no spread is profitable. *)
Theorem no_data_empty_list self symbol :
  (forall name exchange, In (name, exchange) (exchanges self) ->
     supplies_quote exchange symbol = false) ->
  get_arbitrage_opportunities self symbol = [].
Proof.
  intros H. unfold get_arbitrage_opportunities.
  now rewrite (fetch_prices_none self symbol H).
Qed.

Lemma no_data_empty_list_example :
  get_arbitrage_opportunities unreachable_bot "BTC/USDT" = [].
Proof.
  apply (no_data_empty_list unreachable_bot "BTC/USDT"%string).
  intros name ex Hin. simpl in Hin. in_list; reflexivity.
Defined.

(** ** C9 *)

(** C9.  Nothing keeps the two selections apart: on a quote set in which
    one exchange reports a bid above its own ask, the detector emits an
    opportunity that buys and sells at that same exchange; the bot does so
    when its exchanges report these quotes. *)
Theorem same_exchange_opportunity :
  exists prices symbol opp,
    NoDup (keys prices) /\
    2 <= List.length prices /\
    (exists k q, In (k, q) prices /\ flt (ask q) (bid q)) /\
    detect prices symbol = Ok [opp] /\
    buy_at opp = sell_at opp /\
    exists self,
      fetch_prices self symbol = prices /\
      get_arbitrage_opportunities self symbol = [opp].
Proof.
  exists crossed_quotes, "BTC/USDT"%string,
    {| buy_at := "binance"; sell_at := "binance";
       buy_price := 100; sell_price := 102;
       profit_percent := 2; symbol := "BTC/USDT" |}.
  split; [nodup_keys|].
  split; [simpl; lia|].
  split; [exists "binance"%string, (mk_quote 102 100);
          split; [simpl; auto|reflexivity]|].
  split; [vm_compute; reflexivity|].
  split; [reflexivity|].
  exists crossed_bot. split; vm_compute; reflexivity.
Qed.

(** ** C10 *)

(** C10.  When several exchanges share the minimum ask, the exchange
    selected for buying is the first of them in the order of the quote
    set: its ask equals the minimum and every exchange before it has an
    ask strictly above the minimum.  Likewise the exchange selected for
    selling is the first one whose bid equals the maximum bid.  An emitted
    opportunity names these two exchanges; since the detector is a function
    of the quote set, so does every call. *)
Theorem ties_go_to_the_first prices max_bid min_ask :
  NoDup (keys prices) ->
  is_max_bid prices max_bid ->
  is_min_ask prices min_ask ->
  exists l1 buy qa l2 m1 sell qb m2,
    prices = l1 ++ (buy, qa) :: l2 /\
    (ask qa =? min_ask) = true /\
    (forall k q, In (k, q) l1 -> flt min_ask (ask q)) /\
    select_lowest_ask prices = Ok buy /\
    prices = m1 ++ (sell, qb) :: m2 /\
    (bid qb =? max_bid) = true /\
    (forall k q, In (k, q) m1 -> flt (bid q) max_bid) /\
    select_highest_bid prices = Ok sell /\
    forall symbol l opp,
      detect prices symbol = Ok l -> In opp l ->
      buy_at opp = buy /\ sell_at opp = sell.
Proof.
  intros ND Hmax Hmin.
  destruct (lowest_ask_first prices min_ask ND Hmin)
    as (l1 & kb & qa & l2 & Heqa & Hkb & _ & Ea & Hl1).
  destruct (highest_bid_first prices max_bid ND Hmax)
    as (m1 & ks & qb & m2 & Heqb & Hks & _ & Eb & Hm1).
  exists l1, kb, qa, l2, m1, ks, qb, m2.
  repeat (split; [assumption|]).
  intros sym l opp Hd Hin.
  destruct (detect_emits prices sym l opp Hd Hin)
    as (kb' & qa' & ks' & qb' & _ & Hkb' & _ & Hks' & _ & _ & _ & _ & -> & _).
  simpl. split; congruence.
Qed.

(** binance and kucoin both ask 100: binance, the first, is bought at;
    kucoin and huobi both bid 101: kucoin, the first, is sold at. *)
Lemma ties_go_to_the_first_example :
  (exists l1 buy qa l2 m1 sell qb m2,
    tied_quotes = l1 ++ (buy, qa) :: l2 /\
    (ask qa =? 100) = true /\
    (forall k q, In (k, q) l1 -> flt 100 (ask q)) /\
    select_lowest_ask tied_quotes = Ok buy /\
    tied_quotes = m1 ++ (sell, qb) :: m2 /\
    (bid qb =? 101) = true /\
    (forall k q, In (k, q) m1 -> flt (bid q) 101) /\
    select_highest_bid tied_quotes = Ok sell /\
    forall symbol l opp,
      detect tied_quotes symbol = Ok l -> In opp l ->
      buy_at opp = buy /\ sell_at opp = sell) /\
  select_lowest_ask tied_quotes = Ok "binance"%string /\
  select_highest_bid tied_quotes = Ok "kucoin"%string /\
  detect tied_quotes "BTC/USDT"
  = Ok [ {| buy_at := "binance"; sell_at := "kucoin";
            buy_price := 100; sell_price := 101;
            profit_percent := 1; symbol := "BTC/USDT" |} ].
Proof.
  split; [|repeat split; vm_compute; reflexivity].
  apply (ties_go_to_the_first tied_quotes 101 100).
  - nodup_keys.
  - extremum.
  - extremum.
Defined.

(** * Further properties of the code *)

(** ** Collecting the quotes (lines 39-52) *)

Lemma dict_set_fresh {V : Type} (d : dict V) k v :
  ~ In k (keys d) -> dict_set k v d = d ++ [(k, v)].
Proof.
  induction d as [|[k' v'] d IH]; simpl; trivial.
  intros H. destruct (String.eqb_spec k k') as [->|N]; [tauto|].
  rewrite IH; tauto.
Qed.

Lemma dict_set_in {V : Type} (d : dict V) k v k' v' :
  In (k', v') (dict_set k v d) -> (k', v') = (k, v) \/ In (k', v') d.
Proof.
  induction d as [|[k0 v0] d IH]; simpl.
  - intros [H|[]]; auto.
  - destruct (String.eqb_spec k k0) as [->|N]; simpl.
    + intros [H|H]; auto.
    + intros [H|H]; auto. destruct (IH H); auto.
Qed.

Lemma dict_set_length {V : Type} (d : dict V) k v :
  List.length (dict_set k v d) <= S (List.length d).
Proof.
  induction d as [|[k0 v0] d IH]; simpl; [lia|].
  destruct (String.eqb k k0); simpl; lia.
Qed.

(** One round of the loop either leaves [prices] alone or assigns the
    exchange's quote. *)
Lemma fetch_price_cases symbol prices name exchange :
  (quote_entry symbol (name, exchange) = [] /\
   fetch_price symbol prices (name, exchange) = prices) \/
  (exists q, quote_entry symbol (name, exchange) = [(name, q)] /\
             fetch_price symbol prices (name, exchange) = dict_set name q prices).
Proof.
  unfold quote_entry, fetch_price.
  destruct (fetch_ticker exchange symbol) as [t|e]; simpl; auto.
  destruct (ticker_bid t) as [b|], (ticker_ask t) as [a|]; simpl; auto.
  destruct (negb (b =? 0) && negb (a =? 0)); eauto.
Qed.

Lemma fetch_loop_in_order symbol l : forall acc,
  NoDup (keys acc ++ keys l) ->
  fold_left (fetch_price symbol) l acc = acc ++ flat_map (quote_entry symbol) l.
Proof.
  induction l as [|[name ex] l IH]; intros acc ND; cbn [fold_left flat_map].
  - now rewrite app_nil_r.
  - simpl in ND.
    assert (Hfresh : ~ In name (keys acc)).
    { intros Hin. apply NoDup_remove_2 in ND. apply ND.
      apply in_or_app. now left. }
    destruct (fetch_price_cases symbol acc name ex) as [[-> ->]|(q & -> & ->)].
    + simpl. apply IH. now apply NoDup_remove_1 in ND.
    + rewrite dict_set_fresh by trivial. rewrite IH.
      * now rewrite <- app_assoc.
      * unfold keys at 1. rewrite map_app. simpl. rewrite <- app_assoc. exact ND.
Qed.

Lemma fetch_prices_aux self symbol :
  NoDup (keys (exchanges self)) ->
  fetch_prices self symbol = flat_map (quote_entry symbol) (exchanges self).
Proof.
  intros ND. unfold fetch_prices. now rewrite fetch_loop_in_order.
Qed.

(** X1.  When the exchanges of the bot have distinct names, [prices] holds,
    in the order of [self.exchanges], exactly the exchanges whose
    [fetch_ticker] returned a ticker with a bid and an ask that count as
    true, each with that ticker's bid, ask and last; an exchange that raised,
    or whose bid or ask is [None] or zero, is left out and the others are
    kept. *)
Theorem fetch_prices_in_order self symbol :
  NoDup (keys (exchanges self)) ->
  fetch_prices self symbol = flat_map (quote_entry symbol) (exchanges self).
Proof.
  intros ND. unfold fetch_prices. now rewrite fetch_loop_in_order.
Qed.

Lemma fetch_prices_in_order_example :
  fetch_prices
    (ArbitrageBot_init unreachable (quoting 50200 50220)
                       (quoting 0 50000) (quoting 50000 50010)) "BTC/USDT"
  = [("kucoin"%string, mk_quote 50200 50220); ("okx"%string, mk_quote 50000 50010)].
Proof.
  rewrite (fetch_prices_in_order
             (ArbitrageBot_init unreachable (quoting 50200 50220)
                                (quoting 0 50000) (quoting 50000 50010))
             "BTC/USDT").
  - vm_compute; reflexivity.
  - nodup_keys.
Defined.

Lemma quote_entry_sound symbol name exchange q :
  quote_entry symbol (name, exchange) = [(name, q)] ->
  (bid q =? 0) = false /\ (ask q =? 0) = false /\
  exists ticker,
    fetch_ticker exchange symbol = Ok ticker /\
    ticker_bid ticker = Some (bid q) /\
    ticker_ask ticker = Some (ask q) /\
    ticker_last ticker = last q.
Proof.
  unfold quote_entry.
  destruct (fetch_ticker exchange symbol) as [t|e]; [|discriminate].
  destruct (ticker_bid t) as [b|] eqn:Eb; [|discriminate].
  destruct (ticker_ask t) as [a|] eqn:Ea; [|discriminate].
  destruct (b =? 0) eqn:Zb; [discriminate|].
  destruct (a =? 0) eqn:Za; [discriminate|]. simpl.
  intros H. injection H as <-. simpl. eauto 10.
Qed.

Lemma prices_invariant_holds self symbol :
  prices_invariant self symbol (fetch_prices self symbol).
Proof.
  unfold fetch_prices.
  assert (H : forall l acc,
             (forall e, In e l -> In e (exchanges self)) ->
             prices_invariant self symbol acc ->
             prices_invariant self symbol (fold_left (fetch_price symbol) l acc)).
  { induction l as [|[name ex] l IH]; intros acc Hsub Hinv; cbn [fold_left]; trivial.
    apply IH; [intros; apply Hsub; simpl; auto|].
    destruct (fetch_price_cases symbol acc name ex) as [[_ ->]|(q & Hq & ->)]; trivial.
    destruct Hinv as [ND Hall]. split; [now apply dict_set_NoDup|].
    intros n q' Hin. apply dict_set_in in Hin. destruct Hin as [Hin|Hin].
    - injection Hin as -> ->.
      destruct (quote_entry_sound _ _ _ _ Hq) as (Zb & Za & t & Ht & Hb & Ha & Hl).
      repeat split; trivial. exists ex, t. repeat split; trivial.
      apply Hsub. simpl; auto.
    - now apply Hall. }
  apply H; [auto|]. split; [constructor|intros ? ? []].
Qed.

(** X2.  Whatever the exchanges answer, and even if two of them had the
    same name, [prices] never lists an exchange twice, never holds a zero
    bid or ask, and each of its entries is the bid, ask and last of a ticker
    that an exchange of that name returned for the symbol. *)
Theorem fetch_prices_invariant self symbol :
  prices_invariant self symbol (fetch_prices self symbol).
Proof. apply prices_invariant_holds. Qed.

(** ** The detector on the bot (lines 35-79) *)

Lemma quote_entry_supplies symbol name exchange :
  List.length (quote_entry symbol (name, exchange))
  = if supplies_quote exchange symbol then 1%nat else 0%nat.
Proof.
  unfold quote_entry, supplies_quote.
  destruct (fetch_ticker exchange symbol) as [t|e]; trivial.
  destruct (ticker_bid t) as [b|], (ticker_ask t) as [a|]; simpl;
    rewrite ?andb_false_r; trivial.
  now destruct (negb (b =? 0) && negb (a =? 0)).
Qed.

Lemma fetch_loop_length symbol l : forall acc,
  List.length (fold_left (fetch_price symbol) l acc)
  <= List.length acc
     + List.length (filter (fun e => supplies_quote (snd e) symbol) l).
Proof.
  induction l as [|[name ex] l IH]; intros acc; cbn [fold_left filter snd].
  - lia.
  - etransitivity; [apply IH|].
    pose proof (quote_entry_supplies symbol name ex) as Hs.
    destruct (fetch_price_cases symbol acc name ex) as [[E ->]|(q & E & ->)];
      rewrite E in Hs; destruct (supplies_quote ex symbol); simpl in *;
      try discriminate; try lia.
    pose proof (dict_set_length acc name q). lia.
Qed.

(** X3.  When fewer than two exchanges supply a quote for the symbol (the
    others raise, or return a ticker without a usable bid or ask),
    [get_arbitrage_opportunities] returns the empty list. *)
Theorem single_source_no_opportunity self symbol :
  List.length (filter (fun e => supplies_quote (snd e) symbol) (exchanges self)) < 2 ->
  get_arbitrage_opportunities self symbol = [].
Proof.
  intros H. unfold get_arbitrage_opportunities.
  rewrite detect_short; trivial.
  unfold fetch_prices. pose proof (fetch_loop_length symbol (exchanges self) []).
  simpl in *. lia.
Qed.

Lemma single_source_no_opportunity_example :
  get_arbitrage_opportunities
    (ArbitrageBot_init (quoting 50000 50010) unreachable
                       (quoting 0 50300) unreachable) "BTC/USDT" = [].
Proof.
  apply single_source_no_opportunity. vm_compute. lia.
Defined.

(** X4.  [get_arbitrage_opportunities] returns at most one opportunity.  It
    carries the requested symbol; its [buy_price] is the ask of a ticker
    that the exchange named [buy_at] returned for that symbol, its
    [sell_price] the bid of a ticker that the exchange named [sell_at]
    returned, and its [profit_percent] is
    [(sell_price - buy_price) / buy_price * 100]. *)
Theorem opportunity_quotes_are_real self sym opp :
  In opp (get_arbitrage_opportunities self sym) ->
  get_arbitrage_opportunities self sym = [opp] /\
  symbol opp = sym /\
  (exists exchange ticker,
     In (buy_at opp, exchange) (exchanges self) /\
     fetch_ticker exchange sym = Ok ticker /\
     ticker_ask ticker = Some (buy_price opp)) /\
  (exists exchange ticker,
     In (sell_at opp, exchange) (exchanges self) /\
     fetch_ticker exchange sym = Ok ticker /\
     ticker_bid ticker = Some (sell_price opp)) /\
  profit_percent opp = (sell_price opp - buy_price opp) / buy_price opp * 100.
Proof.
  intros Hin.
  destruct (detect_emits _ _ _ opp (get_arbitrage_opportunities_detect self sym) Hin)
    as (kb & qa & ks & qb & _ & _ & Hina & _ & Hinb & _ & _ & _ & -> & Hl).
  destruct (prices_invariant_holds self sym) as [_ Hall].
  destruct (Hall _ _ Hina) as (_ & _ & exa & ta & Ha1 & Ha2 & _ & Ha3 & _).
  destruct (Hall _ _ Hinb) as (_ & _ & exb & tb & Hb1 & Hb2 & Hb3 & _).
  simpl. repeat split; trivial; eauto.
Qed.

Lemma opportunity_quotes_are_real_example :
  get_arbitrage_opportunities steady_bot "BTC/USDT" = [spec_example_opportunity] /\
  symbol spec_example_opportunity = "BTC/USDT"%string /\
  (exists exchange ticker,
     In ("binance"%string, exchange) (exchanges steady_bot) /\
     fetch_ticker exchange "BTC/USDT" = Ok ticker /\
     ticker_ask ticker = Some 50010) /\
  (exists exchange ticker,
     In ("kucoin"%string, exchange) (exchanges steady_bot) /\
     fetch_ticker exchange "BTC/USDT" = Ok ticker /\
     ticker_bid ticker = Some 50200) /\
  0.3799240151969606 = (50200 - 50010) / 50010 * 100.
Proof.
  apply (opportunity_quotes_are_real steady_bot "BTC/USDT" spec_example_opportunity).
  vm_compute. auto.
Defined.

(** ** The detector on its quote set (lines 54-73) *)

Lemma emitted_selection prices symbol l opp :
  NoDup (keys prices) ->
  (forall k q, In (k, q) prices -> ordered (bid q) /\ ordered (ask q)) ->
  detect prices symbol = Ok l -> In opp l ->
  is_min_ask prices (buy_price opp) /\ is_max_bid prices (sell_price opp).
Proof.
  intros ND Hord Hd Hin.
  destruct (detect_emits prices symbol l opp Hd Hin)
    as (kb & qa & ks & qb & Hlen & Hkb & Hina & Hks & Hinb & _ & _ & _ & -> & _).
  assert (Hne : prices <> []) by (intros ->; destruct Hina).
  simpl. split.
  - destruct (dict_select_first ltb ask ordered ltb_trans ltb_negtrans prices Hne ND)
      as (l1 & k & q & l2 & Heq & Hk & Hq & H1 & H2).
    { intros k q Hq. apply (Hord k q Hq). }
    change (select_lowest_ask prices = Ok k) in Hk.
    assert (k = kb) by congruence. subst k.
    assert (q = qa).
    { rewrite (dict_get_unique prices kb qa ND Hina) in Hq. congruence. }
    subst q. split; [exact (in_asks _ _ _ Hina)|].
    intros a Ha. unfold asks in Ha. apply in_map_iff in Ha.
    destruct Ha as ([k0 q0] & <- & Hin0). simpl.
    pose proof (Hord _ _ Hina) as [_ Oa]. pose proof (Hord _ _ Hin0) as [_ O0].
    rewrite Heq in Hin0. apply in_app_or in Hin0.
    destruct Hin0 as [Hin0|[Hin0|Hin0]].
    + apply flt_fle. exact (H1 _ _ Hin0).
    + injection Hin0 as _ <-. now apply fle_refl.
    + apply not_flt_fle; trivial. exact (H2 _ _ Hin0).
  - destruct (dict_select_first gtb bid ordered gtb_trans gtb_negtrans prices Hne ND)
      as (m1 & k & q & m2 & Heq & Hk & Hq & H1 & H2).
    { intros k q Hq. apply (Hord k q Hq). }
    change (select_highest_bid prices = Ok k) in Hk.
    assert (k = ks) by congruence. subst k.
    assert (q = qb).
    { rewrite (dict_get_unique prices ks qb ND Hinb) in Hq. congruence. }
    subst q. split; [exact (in_bids _ _ _ Hinb)|].
    intros b Hb. unfold bids in Hb. apply in_map_iff in Hb.
    destruct Hb as ([k0 q0] & <- & Hin0). simpl.
    pose proof (Hord _ _ Hinb) as [Ob _]. pose proof (Hord _ _ Hin0) as [O0 _].
    rewrite Heq in Hin0. apply in_app_or in Hin0.
    destruct Hin0 as [Hin0|[Hin0|Hin0]].
    + apply flt_fle. exact (H1 _ _ Hin0).
    + injection Hin0 as _ <-. now apply fle_refl.
    + apply not_flt_fle; trivial. exact (H2 _ _ Hin0).
Qed.

(** X5.  On a quote set without NaN, an emitted opportunity is the best
    one: no exchange of the set asks less than its [buy_price] and none
    bids more than its [sell_price]. *)
Theorem emitted_is_best prices symbol l opp :
  NoDup (keys prices) ->
  (forall k q, In (k, q) prices -> ordered (bid q) /\ ordered (ask q)) ->
  detect prices symbol = Ok l -> In opp l ->
  (forall k q, In (k, q) prices ->
     fle (buy_price opp) (ask q) /\ fle (bid q) (sell_price opp)).
Proof.
  intros ND Hord Hd Hin k q Hq.
  destruct (emitted_selection prices symbol l opp ND Hord Hd Hin)
    as [[_ Hmin] [_ Hmax]].
  split; [apply Hmin, (in_asks _ k)|apply Hmax, (in_bids _ k)]; trivial.
Qed.

Lemma emitted_is_best_example :
  fle 50010 50220 /\ fle 50200 50200.
Proof.
  apply (emitted_is_best spec_example_quotes "BTC/USDT"
           [spec_example_opportunity] spec_example_opportunity
           ltac:(nodup_keys)) with (k := "kucoin"%string) (q := mk_quote 50200 50220).
  - intros k q Hin. simpl in Hin. in_list; split; vm_compute; reflexivity.
  - vm_compute; reflexivity.
  - simpl; auto.
  - simpl; auto.
Defined.

Lemma feq_fle x y : (x =? y) = true -> fle x y.
Proof. intros E. apply leb_cmp. right. now apply eqb_cmp. Qed.

(** X6.  When the lowest ask of the quote set is not positive, the guard
    [lowest_ask > 0] of line 61 fails and nothing is reported, whatever
    the other exchanges quote. *)
Theorem nonpositive_ask_no_result prices symbol min_ask :
  NoDup (keys prices) ->
  is_min_ask prices min_ask ->
  (0 <? min_ask) = false ->
  detect prices symbol = Ok [].
Proof.
  intros ND Hmin Hz.
  destruct (Nat.lt_ge_cases (List.length prices) 2) as [H|H].
  - now apply detect_short.
  - destruct (lowest_ask_first prices min_ask ND Hmin)
      as (l1 & kb & qa & l2 & _ & Hkb & Hqa & Ea & _).
    destruct (detect_long prices symbol H)
      as (kb' & qa' & ks & qb & Hkb' & Hqa' & _ & _ & _ & _ & ->).
    assert (kb' = kb) by congruence. subst kb'.
    assert (qa' = qa) by congruence. subst qa'.
    assert (Hno : (ask qa >? 0) = false).
    { unfold gtb. destruct (0 <? ask qa) eqn:E; trivial.
      assert (flt 0 min_ask) by (apply flt_fle_trans with (ask qa); [exact E|now apply feq_fle]).
      unfold flt in *. congruence. }
    now rewrite Hno.
Qed.

(** The third exchange bids 105 against the second's ask of 100, but the
    first one's ask of -1 is the lowest. *)
Lemma nonpositive_ask_no_result_example :
  detect [("binance"%string, mk_quote 1 (-1)); ("kucoin"%string, mk_quote 99 100);
          ("huobi"%string, mk_quote 105 106)] "BTC/USDT" = Ok [].
Proof.
  apply (nonpositive_ask_no_result _ "BTC/USDT" (-1)).
  - nodup_keys.
  - extremum.
  - vm_compute; reflexivity.
Defined.

(** Nothing compares below or above a NaN, so a selection that starts on a
    NaN key keeps its first item. *)
Lemma min_max_loop_stays {A : Type} (better : float -> float -> bool)
    (key : A -> result float) (f : A -> float) (val : float) (l : list A) :
  forall item,
  (forall x, In x l -> key x = Ok (f x)) ->
  (forall v, better v val = false) ->
  min_max_loop better key item val l = Ok item.
Proof.
  induction l as [|y l IH]; intros item Hk Hb; simpl; trivial.
  rewrite (Hk y) by (simpl; auto). simpl. rewrite Hb.
  apply IH; trivial. intros; apply Hk; simpl; auto.
Qed.

Lemma ltb_nan_r x y : (y =? y) = false -> (x <? y) = false.
Proof.
  intros N. destruct (x <? y) eqn:E; trivial.
  destruct (flt_ordered x y E) as [_ O]. unfold ordered in O. congruence.
Qed.

Lemma ltb_nan_l x y : (x =? x) = false -> (x <? y) = false.
Proof.
  intros N. destruct (x <? y) eqn:E; trivial.
  destruct (flt_ordered x y E) as [O _]. unfold ordered in O. congruence.
Qed.

(** X7.  A NaN passes the test of line 43, and when the first exchange of
    the quote set has a NaN ask or a NaN bid the detector reports nothing:
    [min] and [max] keep the first item, since no comparison with a NaN
    holds, and the guard of line 61 fails on it. *)
Theorem nan_first_no_result k0 q0 rest symbol :
  (ask q0 =? ask q0) = false \/ (bid q0 =? bid q0) = false ->
  detect ((k0, q0) :: rest) symbol = Ok [].
Proof.
  intros HN. set (prices := (k0, q0) :: rest).
  destruct (Nat.lt_ge_cases (List.length prices) 2) as [H|H].
  - now apply detect_short.
  - destruct (detect_long prices symbol H)
      as (kb & qa & ks & qb & Hkb & Hqa & _ & Hks & Hqb & _ & ->).
    assert (Hget : dict_get k0 prices = Ok q0)
      by (unfold prices; simpl; now rewrite String.eqb_refl).
    assert (Hkey : forall proj x, In x (keys rest) ->
              key_of proj prices x = Ok (value_at proj prices x)).
    { intros proj x Hx. apply key_of_value. unfold prices. simpl. auto. }
    destruct HN as [N|N].
    + assert (kb = k0).
      { unfold select_lowest_ask, py_min, prices in Hkb. simpl in Hkb.
        rewrite String.eqb_refl in Hkb. simpl in Hkb.
        rewrite (min_max_loop_stays ltb _ (value_at ask prices)) in Hkb.
        - congruence.
        - intros x Hx. apply (Hkey ask x Hx).
        - intros v. now apply ltb_nan_r. }
      subst kb. assert (qa = q0) by congruence. subst qa.
      unfold gtb at 1. now rewrite (ltb_nan_r 0 (ask q0) N).
    + assert (ks = k0).
      { unfold select_highest_bid, py_max, prices in Hks. simpl in Hks.
        rewrite String.eqb_refl in Hks. simpl in Hks.
        rewrite (min_max_loop_stays gtb _ (value_at bid prices)) in Hks.
        - congruence.
        - intros x Hx. apply (Hkey bid x Hx).
        - intros v. unfold gtb. now apply ltb_nan_l. }
      subst ks. assert (qb = q0) by congruence. subst qb.
      unfold gtb at 2. rewrite (ltb_nan_r (ask qa) (bid q0) N).
      now rewrite andb_false_r.
Qed.

(** The same two quotes, the NaN first and the NaN last. *)
Lemma nan_first_no_result_example :
  detect [("binance"%string, mk_quote 100 nan); ("kucoin"%string, mk_quote 102 100)]
         "BTC/USDT" = Ok [] /\
  detect [("kucoin"%string, mk_quote 102 100); ("binance"%string, mk_quote 100 nan)]
         "BTC/USDT"
  = Ok [ {| buy_at := "kucoin"; sell_at := "kucoin";
            buy_price := 100; sell_price := 102;
            profit_percent := 2; symbol := "BTC/USDT" |} ] /\
  supplies_quote (quoting 100 nan) "BTC/USDT" = true.
Proof.
  split; [|split; vm_compute; reflexivity].
  apply (nan_first_no_result "binance" (mk_quote 100 nan)).
  left. vm_compute; reflexivity.
Defined.

Lemma detect_at_extrema prices symbol max_bid min_ask :
  NoDup (keys prices) -> 2 <= List.length prices ->
  is_max_bid prices max_bid -> is_min_ask prices min_ask ->
  flt 0 min_ask -> flt min_ask max_bid -> flt 0.1 (percent max_bid min_ask) ->
  exists buy sell,
    detect prices symbol
    = Ok [ {| buy_at := buy; sell_at := sell;
              buy_price := min_ask; sell_price := max_bid;
              profit_percent := percent max_bid min_ask;
              symbol := symbol |} ].
Proof.
  intros ND Hlen Hmax Hmin Hpos Hlt Hpct.
  destruct (detect_extrema prices symbol max_bid min_ask ND Hlen Hmax Hmin)
    as (kb & ks & qa & qb & Ea & Eb & Hdet).
  assert (Ha : min_ask = ask qa) by (apply feq_pos_eq; [now apply feq_sym|trivial]).
  assert (Hb : max_bid = bid qb).
  { apply feq_pos_eq; [now apply feq_sym|]. now apply flt_trans with min_ask. }
  exists kb, ks. rewrite Hdet. unfold the_opportunity, gtb.
  rewrite <- Ha, <- Hb. unfold flt in Hpos, Hlt, Hpct.
  now rewrite Hpos, Hlt, Hpct.
Qed.

(** X8.  On a quote set without NaN the reported prices and profit do not
    depend on the order in which the exchanges entered [prices]: if the
    detector reports an opportunity, it reports one with the same
    [buy_price], [sell_price], [profit_percent] and symbol on every
    reordering of the quote set (the exchange named may differ, on a
    tie). *)
Theorem detect_order_independent prices prices' symbol opp :
  Permutation prices prices' ->
  NoDup (keys prices) ->
  (forall k q, In (k, q) prices -> ordered (bid q) /\ ordered (ask q)) ->
  detect prices symbol = Ok [opp] ->
  exists buy sell,
    detect prices' symbol
    = Ok [ {| buy_at := buy; sell_at := sell;
              buy_price := buy_price opp; sell_price := sell_price opp;
              profit_percent := profit_percent opp;
              symbol := symbol |} ].
Proof.
  intros HP ND Hord Hd.
  assert (Hin : In opp [opp]) by (simpl; auto).
  destruct (emitted_selection prices symbol _ opp ND Hord Hd Hin) as [Hmin Hmax].
  destruct (detect_emits prices symbol _ opp Hd Hin)
    as (kb & qa & ks & qb & Hlen & _ & _ & _ & _ & Hpos & Hlt & Hpct & -> & _).
  simpl in *.
  apply detect_at_extrema; trivial.
  - unfold keys. apply (Permutation_NoDup (Permutation_map fst HP)). exact ND.
  - now rewrite <- (Permutation_length HP).
  - destruct Hmax as [H1 H2]. unfold is_max_bid, bids in *. split.
    + exact (Permutation_in _ (Permutation_map _ HP) H1).
    + intros b Hb. apply H2.
      exact (Permutation_in _ (Permutation_sym (Permutation_map _ HP)) Hb).
  - destruct Hmin as [H1 H2]. unfold is_min_ask, asks in *. split.
    + exact (Permutation_in _ (Permutation_map _ HP) H1).
    + intros a Ha. apply H2.
      exact (Permutation_in _ (Permutation_sym (Permutation_map _ HP)) Ha).
Qed.

Lemma detect_order_independent_example :
  exists buy sell,
    detect [("kucoin"%string, mk_quote 50200 50220);
            ("binance"%string, mk_quote 50000 50010)] "BTC/USDT"
    = Ok [ {| buy_at := buy; sell_at := sell;
              buy_price := 50010; sell_price := 50200;
              profit_percent := 0.3799240151969606;
              symbol := "BTC/USDT" |} ].
Proof.
  apply (detect_order_independent spec_example_quotes _ "BTC/USDT"
           spec_example_opportunity).
  - apply perm_swap.
  - nodup_keys.
  - intros k q Hin. simpl in Hin. in_list; split; vm_compute; reflexivity.
  - vm_compute; reflexivity.
Defined.

(** ** The scanner (lines 81-94) *)

Lemma get_arbitrage_opportunities_shape self pair :
  get_arbitrage_opportunities self pair = [] \/
  exists opp, get_arbitrage_opportunities self pair = [opp] /\ symbol opp = pair.
Proof.
  destruct (get_arbitrage_opportunities self pair) as [|opp l] eqn:E; auto.
  right. exists opp.
  assert (Hin : In opp (get_arbitrage_opportunities self pair))
    by (rewrite E; simpl; auto).
  destruct (detect_emits _ _ _ opp (get_arbitrage_opportunities_detect self pair) Hin)
    as (kb & qa & ks & qb & _ & _ & _ & _ & _ & _ & _ & _ & -> & Hl).
  rewrite <- E. split; [exact Hl|reflexivity].
Qed.

Lemma found_at_most_one_per_pair self pairs :
  List.length (flat_map (get_arbitrage_opportunities self) pairs)
  <= List.length pairs.
Proof.
  induction pairs as [|p pairs IH]; simpl; trivial.
  rewrite length_app.
  destruct (get_arbitrage_opportunities_shape self p) as [->|(opp & -> & _)];
    simpl; lia.
Qed.

Lemma scan_returns_all_found_aux self :
  Permutation (flat_map (get_arbitrage_opportunities self) common_pairs)
              (scan_multiple_pairs self).
Proof.
  rewrite scan_multiple_pairs_ranked. unfold ranked.
  rewrite firstn_all2.
  - apply sort_desc_perm.
  - rewrite <- (Permutation_length (sort_desc_perm profit_percent _)).
    apply (found_at_most_one_per_pair self common_pairs).
Qed.

(** X9.  The slice [[:5]] of line 94 never discards anything: there are
    five pairs and each yields at most one opportunity, so the scan
    returns every opportunity found, reordered. *)
Theorem scan_returns_all_found self :
  Permutation (flat_map (get_arbitrage_opportunities self) common_pairs)
              (scan_multiple_pairs self).
Proof. apply scan_returns_all_found_aux. Qed.

Lemma found_symbols self pairs :
  map symbol (flat_map (get_arbitrage_opportunities self) pairs)
  = filter (fun p => match get_arbitrage_opportunities self p with
                     | [] => false
                     | _ => true
                     end) pairs.
Proof.
  induction pairs as [|p pairs IH]; simpl; trivial.
  rewrite map_app, IH.
  destruct (get_arbitrage_opportunities_shape self p) as [->|(opp & -> & <-)];
    reflexivity.
Qed.

(** X10.  No pair is reported twice: the symbols of the opportunities that
    the scan returns are distinct, and each is one of the five pairs of
    line 82. *)
Theorem scan_one_per_pair self :
  NoDup (map symbol (scan_multiple_pairs self)) /\
  forall opp, In opp (scan_multiple_pairs self) -> In (symbol opp) common_pairs.
Proof.
  pose proof (Permutation_map symbol (scan_returns_all_found_aux self)) as HP.
  rewrite found_symbols in HP. split.
  - apply (Permutation_NoDup HP), NoDup_filter.
    unfold common_pairs. nodup_keys.
  - intros opp Hin.
    assert (H : In (symbol opp) (map symbol (scan_multiple_pairs self)))
      by now apply in_map.
    apply (Permutation_in _ (Permutation_sym HP)) in H.
    apply filter_In in H. tauto.
Qed.

Lemma sorted_app_cross {A : Type} (R : A -> A -> Prop) (l1 l2 : list A) :
  StronglySorted R (l1 ++ l2) ->
  forall x y, In x l1 -> In y l2 -> R x y.
Proof.
  induction l1 as [|a l1 IH]; simpl; intros Hs x y Hx Hy; [destruct Hx|].
  apply StronglySorted_inv in Hs. destruct Hs as [Hs Ha].
  destruct Hx as [<-|Hx].
  - rewrite Forall_forall in Ha. apply Ha. apply in_or_app. now right.
  - now apply IH.
Qed.

(** X11.  Lines 93-94 keep the best: on any list of opportunities whose
    [profit_percent] is not NaN, what [[:5]] cuts off the sorted list is at
    most as profitable as everything that is kept, and kept and cut
    together are the list given. *)
Theorem ranked_keeps_best (l : list opportunity) :
  Forall (fun opp => ordered (profit_percent opp)) l ->
  exists cut,
    Permutation l (ranked l ++ cut) /\
    forall kept dropped, In kept (ranked l) -> In dropped cut ->
      fle (profit_percent dropped) (profit_percent kept).
Proof.
  intros Hord. exists (skipn 5 (sort_desc profit_percent l)). unfold ranked.
  rewrite firstn_skipn. split; [apply sort_desc_perm|].
  intros kept dropped Hk Hd.
  apply (sorted_app_cross (desc profit_percent)
           (firstn 5 (sort_desc profit_percent l))
           (skipn 5 (sort_desc profit_percent l))); trivial.
  rewrite firstn_skipn. now apply sort_desc_sorted.
Qed.

Lemma ranked_keeps_best_example :
  exists cut,
    Permutation (map with_profit [1; 6; 3; 2; 5; 4])
                (ranked (map with_profit [1; 6; 3; 2; 5; 4]) ++ cut) /\
    forall kept dropped,
      In kept (ranked (map with_profit [1; 6; 3; 2; 5; 4])) -> In dropped cut ->
      fle (profit_percent dropped) (profit_percent kept).
Proof.
  apply (ranked_keeps_best (map with_profit [1; 6; 3; 2; 5; 4])).
  repeat constructor.
Defined.

Lemma sort_desc_sorted_id {A : Type} (key : A -> float) (l : list A) :
  StronglySorted (desc key) l -> sort_desc key l = l.
Proof.
  intros Hs. induction Hs as [|y l Hs IH Hy]; simpl; trivial.
  rewrite IH. destruct l as [|z r]; simpl; trivial.
  inversion Hy as [|? ? Hz _]; subst. unfold desc in Hz.
  now rewrite (fle_not_flt _ _ Hz).
Qed.

(** X12.  The sort is stable and ties keep the order of the pairs: when
    the opportunities found, taken in the order of [common_pairs], already
    have non-increasing [profit_percent] (for instance when they all have
    the same one), the scan returns them in exactly that order. *)
Theorem scan_keeps_pair_order self :
  StronglySorted
    (fun a b => fle (profit_percent b) (profit_percent a))
    (flat_map (get_arbitrage_opportunities self) common_pairs) ->
  scan_multiple_pairs self
  = flat_map (get_arbitrage_opportunities self) common_pairs.
Proof.
  intros Hs. rewrite scan_multiple_pairs_ranked. unfold ranked.
  rewrite (sort_desc_sorted_id profit_percent _ Hs).
  apply firstn_all2. apply (found_at_most_one_per_pair self common_pairs).
Qed.

(** All five pairs show the same profit: they come back in the order of
    line 82. *)
Lemma scan_keeps_pair_order_example :
  scan_multiple_pairs steady_bot
  = flat_map (get_arbitrage_opportunities steady_bot) common_pairs /\
  map symbol (scan_multiple_pairs steady_bot) = common_pairs.
Proof.
  split; [|vm_compute; reflexivity].
  apply (scan_keeps_pair_order steady_bot).
  vm_compute. repeat (constructor; [|repeat (constructor; [reflexivity|]); constructor]).
  constructor.
Defined.

(** ** The status message (lines 171-188) *)

Lemma active_exchanges_loop l : forall acc,
  fold_left
    (fun active_exchanges entry =>
       let '(name, exchange) := entry in
       try_except
         (_ <- fetch_ticker exchange "BTC/USDT" ;;
          Ok (active_exchanges ++ [("✅ " ++ name)%string]))
         (fun _ => active_exchanges ++ [("❌ " ++ name)%string]))
    l acc
  = acc ++ map status_line l.
Proof.
  induction l as [|[name ex] l IH]; intros acc; simpl.
  - now rewrite app_nil_r.
  - rewrite IH. destruct (fetch_ticker ex "BTC/USDT"); simpl;
      now rewrite <- app_assoc.
Qed.

Lemma active_exchanges_lines self :
  active_exchanges self = map status_line (exchanges self).
Proof. unfold active_exchanges. now rewrite active_exchanges_loop. Qed.

(** X13.  The status message has one line per configured exchange, in
    their order: the name after a check mark when [fetch_ticker] returned
    for BTC/USDT (whatever the ticker holds), after a cross when it
    raised. *)
Theorem status_lists_every_exchange self :
  status self
  = status_msg (map status_line (exchanges self)).
Proof. unfold status. now rewrite active_exchanges_lines. Qed.

(** X14.  The count after "Exchanges:" is the number of configured
    exchanges, reachable or not, and the status is "Running" as soon as
    the bot has an exchange, even when every [fetch_ticker] raises;
    "Issues" needs a bot without exchanges. *)
Theorem status_running_whatever_fails self :
  exchanges self <> [] ->
  status self
  = ("🤖 Bot Status:" ++ nl ++
     "Exchanges: " ++ str_of_nat (List.length (exchanges self)) ++ nl ++
     "Status: ✅ Running" ++ nl ++ nl ++
     "Exchange Status:" ++ nl ++ join nl (active_exchanges self))%string.
Proof.
  intros Hne. unfold status, status_msg.
  rewrite active_exchanges_lines at 1 2. rewrite length_map.
  destruct (exchanges self) as [|e l]; [congruence|]. reflexivity.
Qed.

Lemma status_running_whatever_fails_example :
  status unreachable_bot
  = ("🤖 Bot Status:" ++ nl ++
     "Exchanges: 4" ++ nl ++
     "Status: ✅ Running" ++ nl ++ nl ++
     "Exchange Status:" ++ nl ++
     "❌ binance" ++ nl ++ "❌ kucoin" ++ nl ++ "❌ huobi" ++ nl ++ "❌ okx")%string.
Proof.
  rewrite (status_running_whatever_fails unreachable_bot).
  - vm_compute; reflexivity.
  - discriminate.
Defined.

(** ** More on the bot and the scanner *)

Lemma quote_entry_none symbol name exchange :
  supplies_quote exchange symbol = false ->
  quote_entry symbol (name, exchange) = [].
Proof.
  intros H. pose proof (quote_entry_supplies symbol name exchange) as L.
  rewrite H in L. now destruct (quote_entry symbol (name, exchange)).
Qed.

(** X15.  An exchange that supplies no quote for the symbol (it raises, or
    its ticker has no usable bid or ask) changes nothing: the bot returns
    what it would return if that exchange were not configured. *)
Theorem silent_exchange_is_ignored l1 name exchange l2 symbol :
  NoDup (keys (l1 ++ (name, exchange) :: l2)) ->
  supplies_quote exchange symbol = false ->
  get_arbitrage_opportunities {| exchanges := l1 ++ (name, exchange) :: l2 |} symbol
  = get_arbitrage_opportunities {| exchanges := l1 ++ l2 |} symbol.
Proof.
  intros ND Hs. unfold get_arbitrage_opportunities. f_equal.
  assert (ND' : NoDup (keys (l1 ++ l2))).
  { unfold keys in *. rewrite map_app in *. simpl in ND.
    now apply NoDup_remove_1 in ND. }
  rewrite !fetch_prices_aux by assumption. cbn [exchanges].
  rewrite !flat_map_app. cbn [flat_map].
  rewrite quote_entry_none by assumption. reflexivity.
Qed.

Lemma silent_exchange_is_ignored_example :
  get_arbitrage_opportunities
    {| exchanges := [("binance"%string, quoting 50000 50010)]
                    ++ ("huobi"%string, unreachable)
                    :: [("kucoin"%string, quoting 50200 50220)] |} "BTC/USDT"
  = get_arbitrage_opportunities
      {| exchanges := [("binance"%string, quoting 50000 50010)]
                      ++ [("kucoin"%string, quoting 50200 50220)] |} "BTC/USDT".
Proof.
  apply silent_exchange_is_ignored.
  - nodup_keys.
  - reflexivity.
Defined.

(** X16.  The detector never raises: with two quotes or more [min] and
    [max] have something to select and every [prices[x]] finds its key, so
    the [except] of lines 76-77 is never entered from lines 54-73; and it
    yields at most one opportunity. *)
Theorem detect_never_raises prices symbol :
  exists l, detect prices symbol = Ok l /\ List.length l <= 1.
Proof.
  destruct (detect_total prices symbol) as (l & Hl). exists l. split; trivial.
  destruct l as [|opp l]; simpl; [lia|].
  destruct (detect_emits prices symbol _ opp Hl (or_introl eq_refl))
    as (_ & _ & _ & _ & _ & _ & _ & _ & _ & _ & _ & _ & _ & E).
  injection E as ->. simpl. lia.
Qed.

(** X17.  Every opportunity that the scan returns is the one that
    [get_arbitrage_opportunities] finds for its own symbol, with
    [sell_price > buy_price > 0] and a [profit_percent] above 0.1. *)
Theorem scan_results_are_found self opp :
  In opp (scan_multiple_pairs self) ->
  get_arbitrage_opportunities self (symbol opp) = [opp] /\
  flt 0 (buy_price opp) /\
  flt (buy_price opp) (sell_price opp) /\
  flt 0.1 (profit_percent opp).
Proof.
  intros Hin.
  destruct (scan_multiple_pairs_emits self opp Hin) as (pair & _ & Hp).
  destruct (get_arbitrage_opportunities_shape self pair) as [E|(o & E & Es)].
  - rewrite E in Hp. destruct Hp.
  - rewrite E in Hp. destruct Hp as [<-|[]]. rewrite Es.
    assert (Hin' : In o (get_arbitrage_opportunities self pair))
      by (rewrite E; simpl; auto).
    destruct (get_arbitrage_opportunities_emits self pair o Hin')
      as (_ & H1 & H2 & H3 & _).
    auto.
Qed.

Lemma scan_results_are_found_example :
  get_arbitrage_opportunities steady_bot "BTC/USDT" = [spec_example_opportunity] /\
  flt 0 50010 /\ flt 50010 50200 /\ flt 0.1 0.3799240151969606.
Proof.
  apply (scan_results_are_found steady_bot spec_example_opportunity).
  vm_compute. auto.
Defined.
